(** * Basketball jersey plaque: geometry core

    Shallow embedding of the geometry pipeline of the basketball jersey
    design ([basketball-jersey/geometry.js]), of the JSCAD-to-Three.js mesh
    conversion ([viewer.js]) and of the region export loop
    ([stl-exporter.js]).

    Coordinates are JS numbers; they are modelled as real numbers, so the
    statements below are about the exact arithmetic the code writes down
    (rounding of IEEE doubles is not modelled).  JS strings are lists of
    UTF-16 code units, modelled as [list Z]. *)

From Stdlib Require Import Reals Lra Lia List String Ascii ZArith Bool.
Import ListNotations.
Open Scope R_scope.

(** ** Points and polygons *)

Definition point := (R * R)%type.
Definition polygon := list point.

(** JS [x || 1] on a length produced by [Math.sqrt]: a falsy (zero) length
    becomes [1]. *)
Definition or1 (l : R) : R := if Req_EM_T l 0 then 1 else l.

(** [arr.map((p, i) => f(i, p))] *)
Fixpoint mapi_from {A B} (f : nat -> A -> B) (i : nat) (l : list A) : list B :=
  match l with
  | [] => []
  | x :: l' => f i x :: mapi_from f (S i) l'
  end.

Definition mapi {A B} (f : nat -> A -> B) (l : list A) : list B := mapi_from f 0 l.

(** JS string literals (ASCII only) as lists of UTF-16 code units. *)
Fixpoint lit (s : string) : list Z :=
  match s with
  | EmptyString => []
  | String c s' => Z.of_nat (nat_of_ascii c) :: lit s'
  end.

Definition js_str_eqb (a b : list Z) : bool :=
  if list_eq_dec Z.eq_dec a b then true else false.

(** ** Silhouette generator: [jerseyPoints] *)

Definition jersey_outline (shoulderDrop armholeWidth armholeDepth collarW collarDepth : R)
  : polygon :=
  let W := 100 in
  let H := 120 in
  [ (0, 0);
    (W, 0);
    (W, H - shoulderDrop);
    (W - armholeWidth, H - shoulderDrop);
    (W - armholeWidth, H - armholeDepth);
    (W - armholeWidth, H);
    (W / 2 + collarW, H);
    (W / 2, H - collarDepth);
    (W / 2 - collarW, H);
    (armholeWidth, H);
    (armholeWidth, H - armholeDepth);
    (armholeWidth, H - shoulderDrop);
    (0, H - shoulderDrop) ].

Definition jerseyPoints (style : list Z) : polygon :=
  let shoulderDrop := if js_str_eqb style (lit "Retro") then 18 else 14 in
  let armholeWidth := if js_str_eqb style (lit "College") then 22 else 18 in
  let armholeDepth := if js_str_eqb style (lit "Retro") then 30 else 24 in
  let collarW := if js_str_eqb style (lit "NBA Modern") then 20 else 16 in
  let collarDepth := if js_str_eqb style (lit "NBA Modern") then 12 else 10 in
  jersey_outline shoulderDrop armholeWidth armholeDepth collarW collarDepth.

(** Twice the signed (shoelace) area of the implicitly closed polygon; it is
    positive for a counter-clockwise and negative for a clockwise winding
    (y axis pointing up, as in the jersey layout). *)
Fixpoint shoelace_from (first : point) (l : polygon) : R :=
  match l with
  | [] => 0
  | [p] => fst p * snd first - fst first * snd p
  | p :: ((q :: _) as l') => (fst p * snd q - fst q * snd p) + shoelace_from first l'
  end.

Definition area2 (l : polygon) : R :=
  match l with
  | [] => 0
  | p :: _ => shoelace_from p l
  end.

Definition area (l : polygon) : R := Rabs (area2 l) / 2.

(** ** Polygon offsetter: [shrinkPolygon] *)

Definition shrink_vertex (prev p next : point) (amount : R) : point :=
  let e1x := fst p - fst prev in
  let e1y := snd p - snd prev in
  let e2x := fst next - fst p in
  let e2y := snd next - snd p in
  let n1x := e1y in
  let n1y := - e1x in
  let n2x := e2y in
  let n2y := - e2x in
  let l1 := or1 (sqrt (n1x * n1x + n1y * n1y)) in
  let l2 := or1 (sqrt (n2x * n2x + n2y * n2y)) in
  let bx := n1x / l1 + n2x / l2 in
  let by_ := n1y / l1 + n2y / l2 in
  let lb := or1 (sqrt (bx * bx + by_ * by_)) in
  (fst p + (bx / lb) * amount, snd p + (by_ / lb) * amount).

(** [points[(i - 1 + n) % n]] and [points[(i + 1) % n]]; for [0 <= i < n]
    the JS index [(i - 1 + n) % n] equals [(i + n - 1) mod n]. *)
Definition shrinkPolygon (points : polygon) (amount : R) : polygon :=
  let n := List.length points in
  mapi (fun i p =>
          let prev := nth ((i + n - 1) mod n) points (0, 0) in
          let next := nth ((i + 1) mod n) points (0, 0) in
          shrink_vertex prev p next amount) points.

Definition obind {A B : Type} (o : option A) (f : A -> option B) : option B :=
  match o with Some a => f a | None => None end.

Notation "'let?' x := c 'in' k" := (obind c (fun x => k))
  (at level 200, x name, c at level 100, k at level 200).

(** Checked arithmetic: a division by zero or the square root of a
    negative number (the operations that yield [NaN] or an infinity in
    IEEE arithmetic) makes the whole computation undefined. *)
Definition chk_div (a b : R) : option R := if Req_EM_T b 0 then None else Some (a / b).
Definition chk_sqrt (x : R) : option R := if Rlt_dec x 0 then None else Some (sqrt x).

(** [shrink_vertex] with every division and square root checked. *)
Definition shrink_vertex_checked (prev p next : point) (amount : R) : option point :=
  let e1x := fst p - fst prev in
  let e1y := snd p - snd prev in
  let e2x := fst next - fst p in
  let e2y := snd next - snd p in
  let n1x := e1y in
  let n1y := - e1x in
  let n2x := e2y in
  let n2y := - e2x in
  let? s1 := chk_sqrt (n1x * n1x + n1y * n1y) in
  let l1 := or1 s1 in
  let? s2 := chk_sqrt (n2x * n2x + n2y * n2y) in
  let l2 := or1 s2 in
  let? u1x := chk_div n1x l1 in
  let? u2x := chk_div n2x l2 in
  let? u1y := chk_div n1y l1 in
  let? u2y := chk_div n2y l2 in
  let bx := u1x + u2x in
  let by_ := u1y + u2y in
  let? sb := chk_sqrt (bx * bx + by_ * by_) in
  let lb := or1 sb in
  let? cx := chk_div bx lb in
  let? cy := chk_div by_ lb in
  Some (fst p + cx * amount, snd p + cy * amount).

(** The same computation with the [|| 1] guards left out, for contrast. *)
Definition shrink_vertex_unguarded_checked (prev p next : point) (amount : R) : option point :=
  let e1x := fst p - fst prev in
  let e1y := snd p - snd prev in
  let e2x := fst next - fst p in
  let e2y := snd next - snd p in
  let n1x := e1y in
  let n1y := - e1x in
  let n2x := e2y in
  let n2y := - e2x in
  let? l1 := chk_sqrt (n1x * n1x + n1y * n1y) in
  let? l2 := chk_sqrt (n2x * n2x + n2y * n2y) in
  let? u1x := chk_div n1x l1 in
  let? u2x := chk_div n2x l2 in
  let? u1y := chk_div n1y l1 in
  let? u2y := chk_div n2y l2 in
  let bx := u1x + u2x in
  let by_ := u1y + u2y in
  let? lb := chk_sqrt (bx * bx + by_ * by_) in
  let? cx := chk_div bx lb in
  let? cy := chk_div by_ lb in
  Some (fst p + cx * amount, snd p + cy * amount).

(** A list of vertices is defined when every vertex is. *)
Fixpoint all_some {A : Type} (l : list (option A)) : option (list A) :=
  match l with
  | [] => Some []
  | o :: l' => let? x := o in let? xs := all_some l' in Some (x :: xs)
  end.

Definition shrinkPolygon_checked (points : polygon) (amount : R) : option polygon :=
  let n := List.length points in
  all_some (mapi (fun i p =>
          let prev := nth ((i + n - 1) mod n) points (0, 0) in
          let next := nth ((i + 1) mod n) points (0, 0) in
          shrink_vertex_checked prev p next amount) points).

Definition shrinkPolygon_unguarded_checked (points : polygon) (amount : R) : option polygon :=
  let n := List.length points in
  all_some (mapi (fun i p =>
          let prev := nth ((i + n - 1) mod n) points (0, 0) in
          let next := nth ((i + 1) mod n) points (0, 0) in
          shrink_vertex_unguarded_checked prev p next amount) points).


(** ** Curve sampler: [sampleCubic], [sampleQuadratic] *)

(** [for (let i = 1; i <= steps; i++) pts.push(...)] *)
Definition sampleCubic (x0 y0 x1 y1 x2 y2 x3 y3 : R) (steps : nat) : list point :=
  map (fun i =>
         let t := INR i / INR steps in
         let mt := 1 - t in
         (mt*mt*mt*x0 + 3*mt*mt*t*x1 + 3*mt*t*t*x2 + t*t*t*x3,
          mt*mt*mt*y0 + 3*mt*mt*t*y1 + 3*mt*t*t*y2 + t*t*t*y3))
      (seq 1 steps).

Definition sampleQuadratic (x0 y0 x1 y1 x2 y2 : R) (steps : nat) : list point :=
  map (fun i =>
         let t := INR i / INR steps in
         let mt := 1 - t in
         (mt*mt*x0 + 2*mt*t*x1 + t*t*x2,
          mt*mt*y0 + 2*mt*t*y1 + t*t*y2))
      (seq 1 steps).

(** Bezier evaluation as the spec describes it, by de Casteljau's repeated
    linear interpolation (a second definition, compared with the code's
    expanded Bernstein form). *)
Definition lerp (a b : point) (t : R) : point :=
  ((1 - t) * fst a + t * fst b, (1 - t) * snd a + t * snd b).

Definition quad_bezier (p0 p1 p2 : point) (t : R) : point :=
  lerp (lerp p0 p1 t) (lerp p1 p2 t) t.

Definition cubic_bezier (p0 p1 p2 p3 : point) (t : R) : point :=
  lerp (quad_bezier p0 p1 p2 t) (quad_bezier p1 p2 p3 t) t.

(** ** Glyph outline extractor: [pathToContours] *)

(** opentype.js path commands. *)
Inductive cmd : Type :=
  | CmdM (x y : R)
  | CmdL (x y : R)
  | CmdC (x1 y1 x2 y2 x y : R)
  | CmdQ (x1 y1 x y : R)
  | CmdZ.

Definition BEZIER_STEPS : nat := 8.

Record path_state : Type := {
  ps_contours : list (list point);
  ps_current : list point;
  ps_cx : R;
  ps_cy : R }.

(** [if (current.length > 2) contours.push(current);] *)
Definition flush (contours : list (list point)) (current : list point) : list (list point) :=
  if (2 <? List.length current)%nat then contours ++ [current] else contours.

Definition path_step (st : path_state) (c : cmd) : path_state :=
  match c with
  | CmdM x y =>
      {| ps_contours := flush (ps_contours st) (ps_current st);
         ps_current := [(x, y)]; ps_cx := x; ps_cy := y |}
  | CmdL x y =>
      {| ps_contours := ps_contours st;
         ps_current := ps_current st ++ [(x, y)]; ps_cx := x; ps_cy := y |}
  | CmdC x1 y1 x2 y2 x y =>
      {| ps_contours := ps_contours st;
         ps_current := ps_current st
                       ++ sampleCubic (ps_cx st) (ps_cy st) x1 y1 x2 y2 x y BEZIER_STEPS;
         ps_cx := x; ps_cy := y |}
  | CmdQ x1 y1 x y =>
      {| ps_contours := ps_contours st;
         ps_current := ps_current st
                       ++ sampleQuadratic (ps_cx st) (ps_cy st) x1 y1 x y BEZIER_STEPS;
         ps_cx := x; ps_cy := y |}
  | CmdZ =>
      {| ps_contours := flush (ps_contours st) (ps_current st);
         ps_current := []; ps_cx := ps_cx st; ps_cy := ps_cy st |}
  end.

(** [scale] is a parameter of the source function that its body never uses. *)
Definition pathToContours (commands : list cmd) (scale : R) : list (list point) :=
  let st := fold_left path_step commands
              {| ps_contours := []; ps_current := []; ps_cx := 0; ps_cy := 0 |} in
  flush (ps_contours st) (ps_current st).

(** Right-hand normal [(e_y, -e_x)] of the edge [a -> b], as the code takes
    [n1] (edge [prev -> p]) and [n2] (edge [p -> next]). *)
Definition rnormal (a b : point) : point := (snd b - snd a, - (fst b - fst a)).

Definition dot (u v : point) : R := fst u * fst v + snd u * snd v.

Definition norm (u : point) : R := sqrt (dot u u).

Definition psub (q p : point) : point := (fst q - fst p, snd q - snd p).

(** Signed distance of [q] from the line through the edge [a -> b]; positive
    on the right-hand side of the edge, which is the interior side for a
    clockwise polygon (y up). *)
Definition side_dist (a b q : point) : R :=
  dot (psub q a) (rnormal a b) / norm (rnormal a b).

(** Cosine of the angle between the two edge normals at [p]. *)
Definition normal_cos (prev p next : point) : R :=
  dot (rnormal prev p) (rnormal p next) / (norm (rnormal prev p) * norm (rnormal p next)).

(** The clockwise unit square (y up): bottom-left, top-left, top-right,
    bottom-right. *)
Definition cw_unit_square : polygon := [(0, 0); (0, 1); (1, 1); (1, 0)].


(** ** Mesh merger: [jscadToThreeGeometry] (viewer.js) *)

(** The vertex representations [pushVertex] accepts: [[x, y, z]] (newer
    JSCAD API), [{pos: [x, y, z]}] (older API) and [{x, y, z}]. *)
Inductive vertex : Type :=
  | VArray (x y z : R)
  | VPos (x y z : R)
  | VXYZ (x y z : R).

Definition pushVertex (v : vertex) : list R :=
  match v with
  | VArray x y z => [x; y; z]
  | VPos x y z => [x; y; z]
  | VXYZ x y z => [x; y; z]
  end.

Definition vertex0 : vertex := VArray 0 0 0.

(** A JSCAD polygon; [None] when its [vertices] field is missing. *)
Definition face := option (list vertex).

(** [for (let i = i0; i < verts.length - 1; i++) { pushVertex(verts[0]);
    pushVertex(verts[i]); pushVertex(verts[i + 1]); }]; [fuel] bounds the
    iterations and is started at [verts.length]. *)
Fixpoint fan_loop (verts : list vertex) (i fuel : nat) : list R :=
  match fuel with
  | O => []
  | S fuel' =>
      if (i <? List.length verts - 1)%nat then
        pushVertex (nth 0 verts vertex0) ++ pushVertex (nth i verts vertex0)
        ++ pushVertex (nth (S i) verts vertex0) ++ fan_loop verts (S i) fuel'
      else []
  end.

(** One iteration of [polygons.forEach]: [if (!verts || verts.length < 3)
    return;] then the fan loop. *)
Definition face_positions (f : face) : list R :=
  match f with
  | None => []
  | Some verts =>
      if (List.length verts <? 3)%nat then [] else fan_loop verts 1 (List.length verts)
  end.

(** The [positions] array built for a single geom3 ([jscadGeom.polygons || []]). *)
Definition jscadToThree_positions (polygons : option (list face)) : list R :=
  flat_map face_positions (match polygons with Some l => l | None => [] end).

(** The fan triangulation as the spec describes it: vertex 0 with every
    consecutive edge [(v_i, v_(i+1))], [i = 1 .. n-2]; faces with fewer than
    three vertices or without a vertex list give no triangle. *)
Definition fan_triangles (f : face) : list (vertex * vertex * vertex) :=
  match f with
  | Some vs =>
      if (3 <=? List.length vs)%nat then
        map (fun i => (nth 0 vs vertex0, nth i vs vertex0, nth (S i) vs vertex0))
            (seq 1 (List.length vs - 2))
      else []
  | None => []
  end.

Definition tri_floats (t : vertex * vertex * vertex) : list R :=
  let '(a, b, c) := t in pushVertex a ++ pushVertex b ++ pushVertex c.

(** ** JS strings and values *)

Open Scope Z_scope.

(** [WhiteSpace] and [LineTerminator] code units removed by
    [String.prototype.trim]. *)
Definition js_whitespace_units : list Z :=
  [9; 10; 11; 12; 13; 32; 160; 5760; 8192; 8193; 8194; 8195; 8196; 8197; 8198;
   8199; 8200; 8201; 8202; 8232; 8233; 8239; 8287; 12288; 65279].

Definition is_js_whitespace (u : Z) : bool := existsb (Z.eqb u) js_whitespace_units.

Fixpoint drop_ws (s : list Z) : list Z :=
  match s with
  | [] => []
  | u :: s' => if is_js_whitespace u then drop_ws s' else s
  end.

Definition js_trim (s : list Z) : list Z := rev (drop_ws (rev (drop_ws s))).

(** [s.substring(start, end)] for non-negative integer arguments: both are
    clamped to the length and swapped when [start > end]. *)
Definition js_substring (s : list Z) (start end_ : nat) : list Z :=
  let len := List.length s in
  let a := Nat.min start len in
  let b := Nat.min end_ len in
  firstn (Nat.max a b - Nat.min a b) (skipn (Nat.min a b) s).

(** [String.prototype.toUpperCase]: the string is read as a sequence of
    code points (a high surrogate followed by a low surrogate is one code
    point; a lone surrogate stands for itself), each code point is mapped
    by the full default uppercase mapping of the Unicode Character Database
    (the simple mappings of UnicodeData.txt and the unconditional ones of
    SpecialCasing.txt), and the result is encoded back in UTF-16.
    [upper_table] lists every code point above U+007F whose mapping is not
    itself (Unicode 14.0); a code point missing from it maps to itself. *)
Definition upper_table : list (Z * list Z) :=
  [(181, [924]); (223, [83; 83]); (224, [192]); (225, [193]); (226, [194]); (227, [195]);
   (228, [196]); (229, [197]); (230, [198]); (231, [199]); (232, [200]); (233, [201]);
   (234, [202]); (235, [203]); (236, [204]); (237, [205]); (238, [206]); (239, [207]);
   (240, [208]); (241, [209]); (242, [210]); (243, [211]); (244, [212]); (245, [213]);
   (246, [214]); (248, [216]); (249, [217]); (250, [218]); (251, [219]); (252, [220]);
   (253, [221]); (254, [222]); (255, [376]); (257, [256]); (259, [258]); (261, [260]);
   (263, [262]); (265, [264]); (267, [266]); (269, [268]); (271, [270]); (273, [272]);
   (275, [274]); (277, [276]); (279, [278]); (281, [280]); (283, [282]); (285, [284]);
   (287, [286]); (289, [288]); (291, [290]); (293, [292]); (295, [294]); (297, [296]);
   (299, [298]); (301, [300]); (303, [302]); (305, [73]); (307, [306]); (309, [308]);
   (311, [310]); (314, [313]); (316, [315]); (318, [317]); (320, [319]); (322, [321]);
   (324, [323]); (326, [325]); (328, [327]); (329, [700; 78]); (331, [330]); (333, [332]);
   (335, [334]); (337, [336]); (339, [338]); (341, [340]); (343, [342]); (345, [344]);
   (347, [346]); (349, [348]); (351, [350]); (353, [352]); (355, [354]); (357, [356]);
   (359, [358]); (361, [360]); (363, [362]); (365, [364]); (367, [366]); (369, [368]);
   (371, [370]); (373, [372]); (375, [374]); (378, [377]); (380, [379]); (382, [381]);
   (383, [83]); (384, [579]); (387, [386]); (389, [388]); (392, [391]); (396, [395]);
   (402, [401]); (405, [502]); (409, [408]); (410, [573]); (414, [544]); (417, [416]);
   (419, [418]); (421, [420]); (424, [423]); (429, [428]); (432, [431]); (436, [435]);
   (438, [437]); (441, [440]); (445, [444]); (447, [503]); (453, [452]); (454, [452]);
   (456, [455]); (457, [455]); (459, [458]); (460, [458]); (462, [461]); (464, [463]);
   (466, [465]); (468, [467]); (470, [469]); (472, [471]); (474, [473]); (476, [475]);
   (477, [398]); (479, [478]); (481, [480]); (483, [482]); (485, [484]); (487, [486]);
   (489, [488]); (491, [490]); (493, [492]); (495, [494]); (496, [74; 780]); (498, [497]);
   (499, [497]); (501, [500]); (505, [504]); (507, [506]); (509, [508]); (511, [510]);
   (513, [512]); (515, [514]); (517, [516]); (519, [518]); (521, [520]); (523, [522]);
   (525, [524]); (527, [526]); (529, [528]); (531, [530]); (533, [532]); (535, [534]);
   (537, [536]); (539, [538]); (541, [540]); (543, [542]); (547, [546]); (549, [548]);
   (551, [550]); (553, [552]); (555, [554]); (557, [556]); (559, [558]); (561, [560]);
   (563, [562]); (572, [571]); (575, [11390]); (576, [11391]); (578, [577]); (583, [582]);
   (585, [584]); (587, [586]); (589, [588]); (591, [590]); (592, [11375]); (593, [11373]);
   (594, [11376]); (595, [385]); (596, [390]); (598, [393]); (599, [394]); (601, [399]);
   (603, [400]); (604, [42923]); (608, [403]); (609, [42924]); (611, [404]); (613, [42893]);
   (614, [42922]); (616, [407]); (617, [406]); (618, [42926]); (619, [11362]); (620, [42925]);
   (623, [412]); (625, [11374]); (626, [413]); (629, [415]); (637, [11364]); (640, [422]);
   (642, [42949]); (643, [425]); (647, [42929]); (648, [430]); (649, [580]); (650, [433]);
   (651, [434]); (652, [581]); (658, [439]); (669, [42930]); (670, [42928]); (837, [921]);
   (881, [880]); (883, [882]); (887, [886]); (891, [1021]); (892, [1022]); (893, [1023]);
   (912, [921; 776; 769]); (940, [902]); (941, [904]); (942, [905]); (943, [906]); (944, [933; 776; 769]);
   (945, [913]); (946, [914]); (947, [915]); (948, [916]); (949, [917]); (950, [918]);
   (951, [919]); (952, [920]); (953, [921]); (954, [922]); (955, [923]); (956, [924]);
   (957, [925]); (958, [926]); (959, [927]); (960, [928]); (961, [929]); (962, [931]);
   (963, [931]); (964, [932]); (965, [933]); (966, [934]); (967, [935]); (968, [936]);
   (969, [937]); (970, [938]); (971, [939]); (972, [908]); (973, [910]); (974, [911]);
   (976, [914]); (977, [920]); (981, [934]); (982, [928]); (983, [975]); (985, [984]);
   (987, [986]); (989, [988]); (991, [990]); (993, [992]); (995, [994]); (997, [996]);
   (999, [998]); (1001, [1000]); (1003, [1002]); (1005, [1004]); (1007, [1006]); (1008, [922]);
   (1009, [929]); (1010, [1017]); (1011, [895]); (1013, [917]); (1016, [1015]); (1019, [1018]);
   (1072, [1040]); (1073, [1041]); (1074, [1042]); (1075, [1043]); (1076, [1044]); (1077, [1045]);
   (1078, [1046]); (1079, [1047]); (1080, [1048]); (1081, [1049]); (1082, [1050]); (1083, [1051]);
   (1084, [1052]); (1085, [1053]); (1086, [1054]); (1087, [1055]); (1088, [1056]); (1089, [1057]);
   (1090, [1058]); (1091, [1059]); (1092, [1060]); (1093, [1061]); (1094, [1062]); (1095, [1063]);
   (1096, [1064]); (1097, [1065]); (1098, [1066]); (1099, [1067]); (1100, [1068]); (1101, [1069]);
   (1102, [1070]); (1103, [1071]); (1104, [1024]); (1105, [1025]); (1106, [1026]); (1107, [1027]);
   (1108, [1028]); (1109, [1029]); (1110, [1030]); (1111, [1031]); (1112, [1032]); (1113, [1033]);
   (1114, [1034]); (1115, [1035]); (1116, [1036]); (1117, [1037]); (1118, [1038]); (1119, [1039]);
   (1121, [1120]); (1123, [1122]); (1125, [1124]); (1127, [1126]); (1129, [1128]); (1131, [1130]);
   (1133, [1132]); (1135, [1134]); (1137, [1136]); (1139, [1138]); (1141, [1140]); (1143, [1142]);
   (1145, [1144]); (1147, [1146]); (1149, [1148]); (1151, [1150]); (1153, [1152]); (1163, [1162]);
   (1165, [1164]); (1167, [1166]); (1169, [1168]); (1171, [1170]); (1173, [1172]); (1175, [1174]);
   (1177, [1176]); (1179, [1178]); (1181, [1180]); (1183, [1182]); (1185, [1184]); (1187, [1186]);
   (1189, [1188]); (1191, [1190]); (1193, [1192]); (1195, [1194]); (1197, [1196]); (1199, [1198]);
   (1201, [1200]); (1203, [1202]); (1205, [1204]); (1207, [1206]); (1209, [1208]); (1211, [1210]);
   (1213, [1212]); (1215, [1214]); (1218, [1217]); (1220, [1219]); (1222, [1221]); (1224, [1223]);
   (1226, [1225]); (1228, [1227]); (1230, [1229]); (1231, [1216]); (1233, [1232]); (1235, [1234]);
   (1237, [1236]); (1239, [1238]); (1241, [1240]); (1243, [1242]); (1245, [1244]); (1247, [1246]);
   (1249, [1248]); (1251, [1250]); (1253, [1252]); (1255, [1254]); (1257, [1256]); (1259, [1258]);
   (1261, [1260]); (1263, [1262]); (1265, [1264]); (1267, [1266]); (1269, [1268]); (1271, [1270]);
   (1273, [1272]); (1275, [1274]); (1277, [1276]); (1279, [1278]); (1281, [1280]); (1283, [1282]);
   (1285, [1284]); (1287, [1286]); (1289, [1288]); (1291, [1290]); (1293, [1292]); (1295, [1294]);
   (1297, [1296]); (1299, [1298]); (1301, [1300]); (1303, [1302]); (1305, [1304]); (1307, [1306]);
   (1309, [1308]); (1311, [1310]); (1313, [1312]); (1315, [1314]); (1317, [1316]); (1319, [1318]);
   (1321, [1320]); (1323, [1322]); (1325, [1324]); (1327, [1326]); (1377, [1329]); (1378, [1330]);
   (1379, [1331]); (1380, [1332]); (1381, [1333]); (1382, [1334]); (1383, [1335]); (1384, [1336]);
   (1385, [1337]); (1386, [1338]); (1387, [1339]); (1388, [1340]); (1389, [1341]); (1390, [1342]);
   (1391, [1343]); (1392, [1344]); (1393, [1345]); (1394, [1346]); (1395, [1347]); (1396, [1348]);
   (1397, [1349]); (1398, [1350]); (1399, [1351]); (1400, [1352]); (1401, [1353]); (1402, [1354]);
   (1403, [1355]); (1404, [1356]); (1405, [1357]); (1406, [1358]); (1407, [1359]); (1408, [1360]);
   (1409, [1361]); (1410, [1362]); (1411, [1363]); (1412, [1364]); (1413, [1365]); (1414, [1366]);
   (1415, [1333; 1362]); (4304, [7312]); (4305, [7313]); (4306, [7314]); (4307, [7315]); (4308, [7316]);
   (4309, [7317]); (4310, [7318]); (4311, [7319]); (4312, [7320]); (4313, [7321]); (4314, [7322]);
   (4315, [7323]); (4316, [7324]); (4317, [7325]); (4318, [7326]); (4319, [7327]); (4320, [7328]);
   (4321, [7329]); (4322, [7330]); (4323, [7331]); (4324, [7332]); (4325, [7333]); (4326, [7334]);
   (4327, [7335]); (4328, [7336]); (4329, [7337]); (4330, [7338]); (4331, [7339]); (4332, [7340]);
   (4333, [7341]); (4334, [7342]); (4335, [7343]); (4336, [7344]); (4337, [7345]); (4338, [7346]);
   (4339, [7347]); (4340, [7348]); (4341, [7349]); (4342, [7350]); (4343, [7351]); (4344, [7352]);
   (4345, [7353]); (4346, [7354]); (4349, [7357]); (4350, [7358]); (4351, [7359]); (5112, [5104]);
   (5113, [5105]); (5114, [5106]); (5115, [5107]); (5116, [5108]); (5117, [5109]); (7296, [1042]);
   (7297, [1044]); (7298, [1054]); (7299, [1057]); (7300, [1058]); (7301, [1058]); (7302, [1066]);
   (7303, [1122]); (7304, [42570]); (7545, [42877]); (7549, [11363]); (7566, [42950]); (7681, [7680]);
   (7683, [7682]); (7685, [7684]); (7687, [7686]); (7689, [7688]); (7691, [7690]); (7693, [7692]);
   (7695, [7694]); (7697, [7696]); (7699, [7698]); (7701, [7700]); (7703, [7702]); (7705, [7704]);
   (7707, [7706]); (7709, [7708]); (7711, [7710]); (7713, [7712]); (7715, [7714]); (7717, [7716]);
   (7719, [7718]); (7721, [7720]); (7723, [7722]); (7725, [7724]); (7727, [7726]); (7729, [7728]);
   (7731, [7730]); (7733, [7732]); (7735, [7734]); (7737, [7736]); (7739, [7738]); (7741, [7740]);
   (7743, [7742]); (7745, [7744]); (7747, [7746]); (7749, [7748]); (7751, [7750]); (7753, [7752]);
   (7755, [7754]); (7757, [7756]); (7759, [7758]); (7761, [7760]); (7763, [7762]); (7765, [7764]);
   (7767, [7766]); (7769, [7768]); (7771, [7770]); (7773, [7772]); (7775, [7774]); (7777, [7776]);
   (7779, [7778]); (7781, [7780]); (7783, [7782]); (7785, [7784]); (7787, [7786]); (7789, [7788]);
   (7791, [7790]); (7793, [7792]); (7795, [7794]); (7797, [7796]); (7799, [7798]); (7801, [7800]);
   (7803, [7802]); (7805, [7804]); (7807, [7806]); (7809, [7808]); (7811, [7810]); (7813, [7812]);
   (7815, [7814]); (7817, [7816]); (7819, [7818]); (7821, [7820]); (7823, [7822]); (7825, [7824]);
   (7827, [7826]); (7829, [7828]); (7830, [72; 817]); (7831, [84; 776]); (7832, [87; 778]); (7833, [89; 778]);
   (7834, [65; 702]); (7835, [7776]); (7841, [7840]); (7843, [7842]); (7845, [7844]); (7847, [7846]);
   (7849, [7848]); (7851, [7850]); (7853, [7852]); (7855, [7854]); (7857, [7856]); (7859, [7858]);
   (7861, [7860]); (7863, [7862]); (7865, [7864]); (7867, [7866]); (7869, [7868]); (7871, [7870]);
   (7873, [7872]); (7875, [7874]); (7877, [7876]); (7879, [7878]); (7881, [7880]); (7883, [7882]);
   (7885, [7884]); (7887, [7886]); (7889, [7888]); (7891, [7890]); (7893, [7892]); (7895, [7894]);
   (7897, [7896]); (7899, [7898]); (7901, [7900]); (7903, [7902]); (7905, [7904]); (7907, [7906]);
   (7909, [7908]); (7911, [7910]); (7913, [7912]); (7915, [7914]); (7917, [7916]); (7919, [7918]);
   (7921, [7920]); (7923, [7922]); (7925, [7924]); (7927, [7926]); (7929, [7928]); (7931, [7930]);
   (7933, [7932]); (7935, [7934]); (7936, [7944]); (7937, [7945]); (7938, [7946]); (7939, [7947]);
   (7940, [7948]); (7941, [7949]); (7942, [7950]); (7943, [7951]); (7952, [7960]); (7953, [7961]);
   (7954, [7962]); (7955, [7963]); (7956, [7964]); (7957, [7965]); (7968, [7976]); (7969, [7977]);
   (7970, [7978]); (7971, [7979]); (7972, [7980]); (7973, [7981]); (7974, [7982]); (7975, [7983]);
   (7984, [7992]); (7985, [7993]); (7986, [7994]); (7987, [7995]); (7988, [7996]); (7989, [7997]);
   (7990, [7998]); (7991, [7999]); (8000, [8008]); (8001, [8009]); (8002, [8010]); (8003, [8011]);
   (8004, [8012]); (8005, [8013]); (8016, [933; 787]); (8017, [8025]); (8018, [933; 787; 768]); (8019, [8027]);
   (8020, [933; 787; 769]); (8021, [8029]); (8022, [933; 787; 834]); (8023, [8031]); (8032, [8040]); (8033, [8041]);
   (8034, [8042]); (8035, [8043]); (8036, [8044]); (8037, [8045]); (8038, [8046]); (8039, [8047]);
   (8048, [8122]); (8049, [8123]); (8050, [8136]); (8051, [8137]); (8052, [8138]); (8053, [8139]);
   (8054, [8154]); (8055, [8155]); (8056, [8184]); (8057, [8185]); (8058, [8170]); (8059, [8171]);
   (8060, [8186]); (8061, [8187]); (8064, [7944; 921]); (8065, [7945; 921]); (8066, [7946; 921]); (8067, [7947; 921]);
   (8068, [7948; 921]); (8069, [7949; 921]); (8070, [7950; 921]); (8071, [7951; 921]); (8072, [7944; 921]); (8073, [7945; 921]);
   (8074, [7946; 921]); (8075, [7947; 921]); (8076, [7948; 921]); (8077, [7949; 921]); (8078, [7950; 921]); (8079, [7951; 921]);
   (8080, [7976; 921]); (8081, [7977; 921]); (8082, [7978; 921]); (8083, [7979; 921]); (8084, [7980; 921]); (8085, [7981; 921]);
   (8086, [7982; 921]); (8087, [7983; 921]); (8088, [7976; 921]); (8089, [7977; 921]); (8090, [7978; 921]); (8091, [7979; 921]);
   (8092, [7980; 921]); (8093, [7981; 921]); (8094, [7982; 921]); (8095, [7983; 921]); (8096, [8040; 921]); (8097, [8041; 921]);
   (8098, [8042; 921]); (8099, [8043; 921]); (8100, [8044; 921]); (8101, [8045; 921]); (8102, [8046; 921]); (8103, [8047; 921]);
   (8104, [8040; 921]); (8105, [8041; 921]); (8106, [8042; 921]); (8107, [8043; 921]); (8108, [8044; 921]); (8109, [8045; 921]);
   (8110, [8046; 921]); (8111, [8047; 921]); (8112, [8120]); (8113, [8121]); (8114, [8122; 921]); (8115, [913; 921]);
   (8116, [902; 921]); (8118, [913; 834]); (8119, [913; 834; 921]); (8124, [913; 921]); (8126, [921]); (8130, [8138; 921]);
   (8131, [919; 921]); (8132, [905; 921]); (8134, [919; 834]); (8135, [919; 834; 921]); (8140, [919; 921]); (8144, [8152]);
   (8145, [8153]); (8146, [921; 776; 768]); (8147, [921; 776; 769]); (8150, [921; 834]); (8151, [921; 776; 834]); (8160, [8168]);
   (8161, [8169]); (8162, [933; 776; 768]); (8163, [933; 776; 769]); (8164, [929; 787]); (8165, [8172]); (8166, [933; 834]);
   (8167, [933; 776; 834]); (8178, [8186; 921]); (8179, [937; 921]); (8180, [911; 921]); (8182, [937; 834]); (8183, [937; 834; 921]);
   (8188, [937; 921]); (8526, [8498]); (8560, [8544]); (8561, [8545]); (8562, [8546]); (8563, [8547]);
   (8564, [8548]); (8565, [8549]); (8566, [8550]); (8567, [8551]); (8568, [8552]); (8569, [8553]);
   (8570, [8554]); (8571, [8555]); (8572, [8556]); (8573, [8557]); (8574, [8558]); (8575, [8559]);
   (8580, [8579]); (9424, [9398]); (9425, [9399]); (9426, [9400]); (9427, [9401]); (9428, [9402]);
   (9429, [9403]); (9430, [9404]); (9431, [9405]); (9432, [9406]); (9433, [9407]); (9434, [9408]);
   (9435, [9409]); (9436, [9410]); (9437, [9411]); (9438, [9412]); (9439, [9413]); (9440, [9414]);
   (9441, [9415]); (9442, [9416]); (9443, [9417]); (9444, [9418]); (9445, [9419]); (9446, [9420]);
   (9447, [9421]); (9448, [9422]); (9449, [9423]); (11312, [11264]); (11313, [11265]); (11314, [11266]);
   (11315, [11267]); (11316, [11268]); (11317, [11269]); (11318, [11270]); (11319, [11271]); (11320, [11272]);
   (11321, [11273]); (11322, [11274]); (11323, [11275]); (11324, [11276]); (11325, [11277]); (11326, [11278]);
   (11327, [11279]); (11328, [11280]); (11329, [11281]); (11330, [11282]); (11331, [11283]); (11332, [11284]);
   (11333, [11285]); (11334, [11286]); (11335, [11287]); (11336, [11288]); (11337, [11289]); (11338, [11290]);
   (11339, [11291]); (11340, [11292]); (11341, [11293]); (11342, [11294]); (11343, [11295]); (11344, [11296]);
   (11345, [11297]); (11346, [11298]); (11347, [11299]); (11348, [11300]); (11349, [11301]); (11350, [11302]);
   (11351, [11303]); (11352, [11304]); (11353, [11305]); (11354, [11306]); (11355, [11307]); (11356, [11308]);
   (11357, [11309]); (11358, [11310]); (11359, [11311]); (11361, [11360]); (11365, [570]); (11366, [574]);
   (11368, [11367]); (11370, [11369]); (11372, [11371]); (11379, [11378]); (11382, [11381]); (11393, [11392]);
   (11395, [11394]); (11397, [11396]); (11399, [11398]); (11401, [11400]); (11403, [11402]); (11405, [11404]);
   (11407, [11406]); (11409, [11408]); (11411, [11410]); (11413, [11412]); (11415, [11414]); (11417, [11416]);
   (11419, [11418]); (11421, [11420]); (11423, [11422]); (11425, [11424]); (11427, [11426]); (11429, [11428]);
   (11431, [11430]); (11433, [11432]); (11435, [11434]); (11437, [11436]); (11439, [11438]); (11441, [11440]);
   (11443, [11442]); (11445, [11444]); (11447, [11446]); (11449, [11448]); (11451, [11450]); (11453, [11452]);
   (11455, [11454]); (11457, [11456]); (11459, [11458]); (11461, [11460]); (11463, [11462]); (11465, [11464]);
   (11467, [11466]); (11469, [11468]); (11471, [11470]); (11473, [11472]); (11475, [11474]); (11477, [11476]);
   (11479, [11478]); (11481, [11480]); (11483, [11482]); (11485, [11484]); (11487, [11486]); (11489, [11488]);
   (11491, [11490]); (11500, [11499]); (11502, [11501]); (11507, [11506]); (11520, [4256]); (11521, [4257]);
   (11522, [4258]); (11523, [4259]); (11524, [4260]); (11525, [4261]); (11526, [4262]); (11527, [4263]);
   (11528, [4264]); (11529, [4265]); (11530, [4266]); (11531, [4267]); (11532, [4268]); (11533, [4269]);
   (11534, [4270]); (11535, [4271]); (11536, [4272]); (11537, [4273]); (11538, [4274]); (11539, [4275]);
   (11540, [4276]); (11541, [4277]); (11542, [4278]); (11543, [4279]); (11544, [4280]); (11545, [4281]);
   (11546, [4282]); (11547, [4283]); (11548, [4284]); (11549, [4285]); (11550, [4286]); (11551, [4287]);
   (11552, [4288]); (11553, [4289]); (11554, [4290]); (11555, [4291]); (11556, [4292]); (11557, [4293]);
   (11559, [4295]); (11565, [4301]); (42561, [42560]); (42563, [42562]); (42565, [42564]); (42567, [42566]);
   (42569, [42568]); (42571, [42570]); (42573, [42572]); (42575, [42574]); (42577, [42576]); (42579, [42578]);
   (42581, [42580]); (42583, [42582]); (42585, [42584]); (42587, [42586]); (42589, [42588]); (42591, [42590]);
   (42593, [42592]); (42595, [42594]); (42597, [42596]); (42599, [42598]); (42601, [42600]); (42603, [42602]);
   (42605, [42604]); (42625, [42624]); (42627, [42626]); (42629, [42628]); (42631, [42630]); (42633, [42632]);
   (42635, [42634]); (42637, [42636]); (42639, [42638]); (42641, [42640]); (42643, [42642]); (42645, [42644]);
   (42647, [42646]); (42649, [42648]); (42651, [42650]); (42787, [42786]); (42789, [42788]); (42791, [42790]);
   (42793, [42792]); (42795, [42794]); (42797, [42796]); (42799, [42798]); (42803, [42802]); (42805, [42804]);
   (42807, [42806]); (42809, [42808]); (42811, [42810]); (42813, [42812]); (42815, [42814]); (42817, [42816]);
   (42819, [42818]); (42821, [42820]); (42823, [42822]); (42825, [42824]); (42827, [42826]); (42829, [42828]);
   (42831, [42830]); (42833, [42832]); (42835, [42834]); (42837, [42836]); (42839, [42838]); (42841, [42840]);
   (42843, [42842]); (42845, [42844]); (42847, [42846]); (42849, [42848]); (42851, [42850]); (42853, [42852]);
   (42855, [42854]); (42857, [42856]); (42859, [42858]); (42861, [42860]); (42863, [42862]); (42874, [42873]);
   (42876, [42875]); (42879, [42878]); (42881, [42880]); (42883, [42882]); (42885, [42884]); (42887, [42886]);
   (42892, [42891]); (42897, [42896]); (42899, [42898]); (42900, [42948]); (42903, [42902]); (42905, [42904]);
   (42907, [42906]); (42909, [42908]); (42911, [42910]); (42913, [42912]); (42915, [42914]); (42917, [42916]);
   (42919, [42918]); (42921, [42920]); (42933, [42932]); (42935, [42934]); (42937, [42936]); (42939, [42938]);
   (42941, [42940]); (42943, [42942]); (42945, [42944]); (42947, [42946]); (42952, [42951]); (42954, [42953]);
   (42961, [42960]); (42967, [42966]); (42969, [42968]); (42998, [42997]); (43859, [42931]); (43888, [5024]);
   (43889, [5025]); (43890, [5026]); (43891, [5027]); (43892, [5028]); (43893, [5029]); (43894, [5030]);
   (43895, [5031]); (43896, [5032]); (43897, [5033]); (43898, [5034]); (43899, [5035]); (43900, [5036]);
   (43901, [5037]); (43902, [5038]); (43903, [5039]); (43904, [5040]); (43905, [5041]); (43906, [5042]);
   (43907, [5043]); (43908, [5044]); (43909, [5045]); (43910, [5046]); (43911, [5047]); (43912, [5048]);
   (43913, [5049]); (43914, [5050]); (43915, [5051]); (43916, [5052]); (43917, [5053]); (43918, [5054]);
   (43919, [5055]); (43920, [5056]); (43921, [5057]); (43922, [5058]); (43923, [5059]); (43924, [5060]);
   (43925, [5061]); (43926, [5062]); (43927, [5063]); (43928, [5064]); (43929, [5065]); (43930, [5066]);
   (43931, [5067]); (43932, [5068]); (43933, [5069]); (43934, [5070]); (43935, [5071]); (43936, [5072]);
   (43937, [5073]); (43938, [5074]); (43939, [5075]); (43940, [5076]); (43941, [5077]); (43942, [5078]);
   (43943, [5079]); (43944, [5080]); (43945, [5081]); (43946, [5082]); (43947, [5083]); (43948, [5084]);
   (43949, [5085]); (43950, [5086]); (43951, [5087]); (43952, [5088]); (43953, [5089]); (43954, [5090]);
   (43955, [5091]); (43956, [5092]); (43957, [5093]); (43958, [5094]); (43959, [5095]); (43960, [5096]);
   (43961, [5097]); (43962, [5098]); (43963, [5099]); (43964, [5100]); (43965, [5101]); (43966, [5102]);
   (43967, [5103]); (64256, [70; 70]); (64257, [70; 73]); (64258, [70; 76]); (64259, [70; 70; 73]); (64260, [70; 70; 76]);
   (64261, [83; 84]); (64262, [83; 84]); (64275, [1348; 1350]); (64276, [1348; 1333]); (64277, [1348; 1339]); (64278, [1358; 1350]);
   (64279, [1348; 1341]); (65345, [65313]); (65346, [65314]); (65347, [65315]); (65348, [65316]); (65349, [65317]);
   (65350, [65318]); (65351, [65319]); (65352, [65320]); (65353, [65321]); (65354, [65322]); (65355, [65323]);
   (65356, [65324]); (65357, [65325]); (65358, [65326]); (65359, [65327]); (65360, [65328]); (65361, [65329]);
   (65362, [65330]); (65363, [65331]); (65364, [65332]); (65365, [65333]); (65366, [65334]); (65367, [65335]);
   (65368, [65336]); (65369, [65337]); (65370, [65338]); (66600, [66560]); (66601, [66561]); (66602, [66562]);
   (66603, [66563]); (66604, [66564]); (66605, [66565]); (66606, [66566]); (66607, [66567]); (66608, [66568]);
   (66609, [66569]); (66610, [66570]); (66611, [66571]); (66612, [66572]); (66613, [66573]); (66614, [66574]);
   (66615, [66575]); (66616, [66576]); (66617, [66577]); (66618, [66578]); (66619, [66579]); (66620, [66580]);
   (66621, [66581]); (66622, [66582]); (66623, [66583]); (66624, [66584]); (66625, [66585]); (66626, [66586]);
   (66627, [66587]); (66628, [66588]); (66629, [66589]); (66630, [66590]); (66631, [66591]); (66632, [66592]);
   (66633, [66593]); (66634, [66594]); (66635, [66595]); (66636, [66596]); (66637, [66597]); (66638, [66598]);
   (66639, [66599]); (66776, [66736]); (66777, [66737]); (66778, [66738]); (66779, [66739]); (66780, [66740]);
   (66781, [66741]); (66782, [66742]); (66783, [66743]); (66784, [66744]); (66785, [66745]); (66786, [66746]);
   (66787, [66747]); (66788, [66748]); (66789, [66749]); (66790, [66750]); (66791, [66751]); (66792, [66752]);
   (66793, [66753]); (66794, [66754]); (66795, [66755]); (66796, [66756]); (66797, [66757]); (66798, [66758]);
   (66799, [66759]); (66800, [66760]); (66801, [66761]); (66802, [66762]); (66803, [66763]); (66804, [66764]);
   (66805, [66765]); (66806, [66766]); (66807, [66767]); (66808, [66768]); (66809, [66769]); (66810, [66770]);
   (66811, [66771]); (66967, [66928]); (66968, [66929]); (66969, [66930]); (66970, [66931]); (66971, [66932]);
   (66972, [66933]); (66973, [66934]); (66974, [66935]); (66975, [66936]); (66976, [66937]); (66977, [66938]);
   (66979, [66940]); (66980, [66941]); (66981, [66942]); (66982, [66943]); (66983, [66944]); (66984, [66945]);
   (66985, [66946]); (66986, [66947]); (66987, [66948]); (66988, [66949]); (66989, [66950]); (66990, [66951]);
   (66991, [66952]); (66992, [66953]); (66993, [66954]); (66995, [66956]); (66996, [66957]); (66997, [66958]);
   (66998, [66959]); (66999, [66960]); (67000, [66961]); (67001, [66962]); (67003, [66964]); (67004, [66965]);
   (68800, [68736]); (68801, [68737]); (68802, [68738]); (68803, [68739]); (68804, [68740]); (68805, [68741]);
   (68806, [68742]); (68807, [68743]); (68808, [68744]); (68809, [68745]); (68810, [68746]); (68811, [68747]);
   (68812, [68748]); (68813, [68749]); (68814, [68750]); (68815, [68751]); (68816, [68752]); (68817, [68753]);
   (68818, [68754]); (68819, [68755]); (68820, [68756]); (68821, [68757]); (68822, [68758]); (68823, [68759]);
   (68824, [68760]); (68825, [68761]); (68826, [68762]); (68827, [68763]); (68828, [68764]); (68829, [68765]);
   (68830, [68766]); (68831, [68767]); (68832, [68768]); (68833, [68769]); (68834, [68770]); (68835, [68771]);
   (68836, [68772]); (68837, [68773]); (68838, [68774]); (68839, [68775]); (68840, [68776]); (68841, [68777]);
   (68842, [68778]); (68843, [68779]); (68844, [68780]); (68845, [68781]); (68846, [68782]); (68847, [68783]);
   (68848, [68784]); (68849, [68785]); (68850, [68786]); (71872, [71840]); (71873, [71841]); (71874, [71842]);
   (71875, [71843]); (71876, [71844]); (71877, [71845]); (71878, [71846]); (71879, [71847]); (71880, [71848]);
   (71881, [71849]); (71882, [71850]); (71883, [71851]); (71884, [71852]); (71885, [71853]); (71886, [71854]);
   (71887, [71855]); (71888, [71856]); (71889, [71857]); (71890, [71858]); (71891, [71859]); (71892, [71860]);
   (71893, [71861]); (71894, [71862]); (71895, [71863]); (71896, [71864]); (71897, [71865]); (71898, [71866]);
   (71899, [71867]); (71900, [71868]); (71901, [71869]); (71902, [71870]); (71903, [71871]); (93792, [93760]);
   (93793, [93761]); (93794, [93762]); (93795, [93763]); (93796, [93764]); (93797, [93765]); (93798, [93766]);
   (93799, [93767]); (93800, [93768]); (93801, [93769]); (93802, [93770]); (93803, [93771]); (93804, [93772]);
   (93805, [93773]); (93806, [93774]); (93807, [93775]); (93808, [93776]); (93809, [93777]); (93810, [93778]);
   (93811, [93779]); (93812, [93780]); (93813, [93781]); (93814, [93782]); (93815, [93783]); (93816, [93784]);
   (93817, [93785]); (93818, [93786]); (93819, [93787]); (93820, [93788]); (93821, [93789]); (93822, [93790]);
   (93823, [93791]); (125218, [125184]); (125219, [125185]); (125220, [125186]); (125221, [125187]); (125222, [125188]);
   (125223, [125189]); (125224, [125190]); (125225, [125191]); (125226, [125192]); (125227, [125193]); (125228, [125194]);
   (125229, [125195]); (125230, [125196]); (125231, [125197]); (125232, [125198]); (125233, [125199]); (125234, [125200]);
   (125235, [125201]); (125236, [125202]); (125237, [125203]); (125238, [125204]); (125239, [125205]); (125240, [125206]);
   (125241, [125207]); (125242, [125208]); (125243, [125209]); (125244, [125210]); (125245, [125211]); (125246, [125212]);
   (125247, [125213]); (125248, [125214]); (125249, [125215]); (125250, [125216]); (125251, [125217])].

Definition is_high_surrogate (u : Z) : bool := (55296 <=? u) && (u <=? 56319).

Definition is_low_surrogate (u : Z) : bool := (56320 <=? u) && (u <=? 57343).

(** UTF-16 encoding of one code point. *)
Definition utf16_encode (cp : Z) : list Z :=
  if cp <? 65536 then [cp]
  else [55296 + (cp - 65536) / 1024; 56320 + (cp - 65536) mod 1024].

Definition upper_code_point (cp : Z) : list Z :=
  if (97 <=? cp) && (cp <=? 122) then [cp - 32]
  else match find (fun e => fst e =? cp) upper_table with
       | Some (_, v) => v
       | None => [cp]
       end.

Definition upper_units (cp : Z) : list Z := flat_map utf16_encode (upper_code_point cp).

Fixpoint js_toUpperCase (s : list Z) : list Z :=
  match s with
  | [] => []
  | h :: ((l :: rest) as tl) =>
      if is_high_surrogate h && is_low_surrogate l
      then upper_units ((h - 55296) * 1024 + (l - 56320) + 65536) ++ js_toUpperCase rest
      else upper_units h ++ js_toUpperCase tl
  | [u] => upper_units u
  end.

Fixpoint uint_units (d : Decimal.uint) : list Z :=
  match d with
  | Decimal.Nil => []
  | Decimal.D0 d' => 48 :: uint_units d'
  | Decimal.D1 d' => 49 :: uint_units d'
  | Decimal.D2 d' => 50 :: uint_units d'
  | Decimal.D3 d' => 51 :: uint_units d'
  | Decimal.D4 d' => 52 :: uint_units d'
  | Decimal.D5 d' => 53 :: uint_units d'
  | Decimal.D6 d' => 54 :: uint_units d'
  | Decimal.D7 d' => 55 :: uint_units d'
  | Decimal.D8 d' => 56 :: uint_units d'
  | Decimal.D9 d' => 57 :: uint_units d'
  end.

(** Decimal digits of an integer, with a leading [-] when negative. *)
Definition int_units (z : Z) : list Z :=
  match Z.to_int z with
  | Decimal.Pos d => uint_units d
  | Decimal.Neg d => 45 :: uint_units d
  end.

(** A JS number: [NaN], an infinity, or the finite value
    [(-1)^neg * m * 2^e].  An IEEE binary64 value has [m < 2^53] and
    [-1074 <= e <= 971]; [m = 0] is a (signed) zero. *)
Inductive js_number : Type :=
  | NNaN
  | NInf (neg : bool)
  | NFin (neg : bool) (m : N) (e : Z).

(** The canonical binary64 form [(M, E)] of the positive value [m * 2^e]:
    [2^52 <= M < 2^53], or [E = -1074] for a subnormal value. *)
Definition canonical_binary64 (m e : Z) : Z * Z :=
  let E := Z.max (e + Z.log2 m - 52) (-1074) in
  (if e - E >=? 0 then m * 2 ^ (e - E) else m / 2 ^ (E - e), E).

(** Exact comparison of [s * 10^q] with [A * 2^F]. *)
Definition cmp_dec_bin (s q A F : Z) : comparison :=
  let a := Z.max 0 (- q) in
  let b := Z.max 0 (- F) in
  Z.compare (s * 10 ^ (q + a) * 2 ^ b) (A * 2 ^ (F + b) * 10 ^ a).

(** [floor(log10(M * 2^E))], found from the estimate [t]. *)
Fixpoint adjust_e10 (fuel : nat) (M E t : Z) : Z :=
  match fuel with
  | O => t
  | S f =>
      match cmp_dec_bin 1 t M E with
      | Gt => adjust_e10 f M E (t - 1)
      | _ => match cmp_dec_bin 1 (t + 1) M E with
             | Gt => t
             | _ => adjust_e10 f M E (t + 1)
             end
      end
  end.

(** The [k]-digit integers [s] with [s * 10^q] rounding to [x = M * 2^E]
    (round to nearest, ties to even: the interval between the midpoints to
    the neighbouring doubles, closed when [M] is even), where
    [q = E10 - k + 1]; of these, the one closest to [x] (the even one on a
    tie).  [10^k] itself is allowed: it is the one-digit [1] at [q + k]. *)
Definition digits_at (M E k E10 : Z) : option (Z * Z) :=
  let q := E10 - k + 1 in
  let F := E - 2 in
  let num := fun A => A * 2 ^ Z.max F 0 * 10 ^ Z.max (- q) 0 in
  let den := 2 ^ Z.max (- F) 0 * 10 ^ Z.max q 0 in
  let lowA := if (M =? 2 ^ 52) && (-1074 <? E) then 4 * M - 1 else 4 * M - 2 in
  let highA := 4 * M + 2 in
  let lo_s := if Z.even M then (num lowA + den - 1) / den else num lowA / den + 1 in
  let hi_s := if Z.even M then num highA / den else (num highA - 1) / den in
  let lo := Z.max lo_s (10 ^ (k - 1)) in
  let hi := Z.min hi_s (10 ^ k) in
  if lo <=? hi then
    let r := num (4 * M) in
    let fl := r / den in
    let rnd := match Z.compare (2 * (r mod den)) den with
               | Lt => fl
               | Gt => fl + 1
               | Eq => if Z.even fl then fl else fl + 1
               end in
    Some (Z.max lo (Z.min hi rnd), q)
  else None.

(** The least digit count [k] (from [k] on) with a candidate: [(s, k, q)]. *)
Fixpoint shortest_from (fuel : nat) (k M E E10 : Z) : Z * Z * Z :=
  match fuel with
  | O => (M, k, E10)
  | S f =>
      match digits_at M E k E10 with
      | Some (s, q) => (s, k, q)
      | None => shortest_from f (k + 1) M E E10
      end
  end.

Definition zeros (n : Z) : list Z := repeat 48 (Z.to_nat n).

(** Steps 6 to 10 of [Number::toString(x, 10)] for the digits [s] ([k] of
    them) and the decimal point position [n]. *)
Definition format_decimal (s k n : Z) : list Z :=
  let ds := int_units s in
  if (k <=? n) && (n <=? 21) then ds ++ zeros (n - k)
  else if (0 <? n) && (n <=? 21) then firstn (Z.to_nat n) ds ++ [46] ++ skipn (Z.to_nat n) ds
  else if (-6 <? n) && (n <=? 0) then [48; 46] ++ zeros (- n) ++ ds
  else
    let e := n - 1 in
    let ex := [101; if 0 <=? e then 43 else 45] ++ int_units (Z.abs e) in
    if k =? 1 then ds ++ ex else firstn 1 ds ++ [46] ++ skipn 1 ds ++ ex.

(** [Number::toString(x, 10)]: the shortest decimal that rounds to [x],
    the closest one to [x] when several have that length. *)
Definition Number_toString (x : js_number) : list Z :=
  match x with
  | NNaN => lit "NaN"
  | NInf false => lit "Infinity"
  | NInf true => lit "-Infinity"
  | NFin neg m e =>
      if (m =? 0)%N then lit "0"
      else
        let '(M, E) := canonical_binary64 (Z.of_N m) e in
        let E10 := adjust_e10 8 M E (((Z.log2 M + E) * 30103) / 100000) in
        let '(s, k, q) := shortest_from 17 1 M E E10 in
        let '(s, k, q) := if s =? 10 ^ k then (1, 1, q + k) else (s, k, q) in
        (if neg then [45] else []) ++ format_decimal s k (q + k)
  end.

(** Primitive values of the inputs map. *)
Inductive jsval : Type :=
  | JStr (s : list Z)
  | JNum (x : js_number)
  | JBigInt (z : Z)
  | JBool (b : bool)
  | JSymbol (description : option (list Z))
  | JNull
  | JUndefined.

(** [String(v)]; a symbol gives its descriptive string. *)
Definition js_String (v : jsval) : list Z :=
  match v with
  | JStr s => s
  | JNum x => Number_toString x
  | JBigInt z => int_units z
  | JBool true => lit "true"
  | JBool false => lit "false"
  | JSymbol d => lit "Symbol(" ++ match d with Some s => s | None => [] end ++ lit ")"
  | JNull => lit "null"
  | JUndefined => lit "undefined"
  end.

Definition js_truthy (v : jsval) : bool :=
  match v with
  | JStr s => negb (match s with [] => true | _ => false end)
  | JNum NNaN => false
  | JNum (NInf _) => true
  | JNum (NFin _ m _) => negb (m =? 0)%N
  | JBigInt z => negb (z =? 0)
  | JBool b => b
  | JSymbol _ => true
  | JNull | JUndefined => false
  end.

Close Scope Z_scope.

(** ** Solid builder: the JSCAD calls of [geometry.js] *)

Inductive geom2 : Type :=
  | G2Polygon (pts : polygon)
  | G2Subtract (outer inner : geom2).

Inductive geom3 : Type :=
  | G3Extrude (height : R) (g : geom2)
  | G3Translate (v : R * R * R) (g : geom3)
  | G3Union (gs : list geom3).

Definition buildBody (points : polygon) (thickness : R) : geom3 :=
  G3Extrude thickness (G2Polygon points).

Definition buildTrim (points : polygon) (baseThickness trimWidth textHeight : R) : geom3 :=
  let outer := G2Polygon points in
  let inner := G2Polygon (shrinkPolygon points trimWidth) in
  G3Extrude (baseThickness + textHeight) (G2Subtract outer inner).

(** The loaded opentype.js font.  [advanceWidth] is [None] when the glyph
    has none. *)
Record font : Type := {
  Glyph : Type;
  unitsPerEm : R;
  stringToGlyphs : list Z -> list Glyph;
  getPath : Glyph -> R -> list cmd;
  advanceWidth : Glyph -> option R;
  getKerningValue : Glyph -> Glyph -> R }.

Record text_opts : Type := {
  o_size : R; o_z : R; o_height : R; o_centerX : R; o_centerY : R }.

(** [glyph.advanceWidth || size * 0.6] *)
Definition advance (f : font) (g : Glyph f) (size : R) : R :=
  match advanceWidth f g with
  | Some a => if Req_EM_T a 0 then size * 0.6 else a
  | None => size * 0.6
  end.

(** The glyph loop of [buildText]: returns the final [cursorX] and
    [allPolygons].  JSCAD's [primitives.polygon] is modelled as total, so
    its [catch] branch is never taken. *)
Fixpoint glyph_loop (f : font) (size scale : R) (glyphs : list (Glyph f))
    (cursorX : R) (allPolygons : list (geom2 * R)) : R * list (geom2 * R) :=
  match glyphs with
  | [] => (cursorX, allPolygons)
  | g :: rest =>
      let contours := pathToContours (getPath f g size) scale in
      let allPolygons' :=
        allPolygons ++ map (fun pts => (G2Polygon pts, cursorX))
                           (filter (fun pts => (3 <=? List.length pts)%nat) contours) in
      let cursorX1 := cursorX + advance f g size * scale in
      let cursorX2 := match rest with
                      | g' :: _ => cursorX1 + getKerningValue f g g' * scale
                      | [] => cursorX1
                      end in
      glyph_loop f size scale rest cursorX2 allPolygons'
  end.

Definition is_empty_str (s : list Z) : bool := match s with [] => true | _ => false end.

(** [buildText]; [None] is the JS [null]. *)
Definition buildText (f : font) (text : list Z) (o : text_opts) : option geom3 :=
  if is_empty_str text || is_empty_str (js_trim text) then None
  else
    let scale := o_size o / unitsPerEm f in
    let glyphs := stringToGlyphs f text in
    let '(cursorX, allPolygons) := glyph_loop f (o_size o) scale glyphs 0 [] in
    match allPolygons with
    | [] => None
    | _ =>
        let textWidth := cursorX in
        let startX := o_centerX o - textWidth / 2 in
        let extruded :=
          map (fun '(poly, offsetX) =>
                 G3Translate (startX + offsetX, o_centerY o, o_z o) (G3Extrude (o_height o) poly))
              allPolygons in
        match extruded with
        | [e] => Some e
        | _ => Some (G3Union extruded)
        end
    end.

(** ** Entry point: [generate] *)

(** The inputs map; [None] is a missing key.  [jerseyStyle] and
    [baseThickness] are typed as the form supplies them. *)
Record inputs : Type := {
  in_playerName : option jsval;
  in_number : option jsval;
  in_jerseyStyle : option (list Z);
  in_showTrim : option jsval;
  in_baseThickness : option R }.

(** Destructuring default: applies to a missing or [undefined] value. *)
Definition with_default (o : option jsval) (d : jsval) : jsval :=
  match o with
  | None | Some JUndefined => d
  | Some v => v
  end.

Definition region_map := list (list Z * option geom3).

Definition number_opts (baseThickness : R) : text_opts :=
  {| o_size := 28; o_z := baseThickness; o_height := 2; o_centerX := 50; o_centerY := 68 |}.

Definition name_opts (baseThickness : R) : text_opts :=
  {| o_size := 10; o_z := baseThickness; o_height := 2; o_centerX := 50; o_centerY := 26 |}.

Definition generate (fnt : font) (inp : inputs) : region_map :=
  let playerName := with_default (in_playerName inp) (JStr (lit "SMITH")) in
  let number := with_default (in_number inp) (JStr (lit "23")) in
  let jerseyStyle := match in_jerseyStyle inp with Some s => s | None => lit "NBA Modern" end in
  let showTrim := with_default (in_showTrim inp) (JBool true) in
  let baseThickness := match in_baseThickness inp with Some t => t | None => 3 end in
  let textH := 2 in
  let trimW := 1.5 in
  let silhouette := jerseyPoints jerseyStyle in
  let bodyGeom := buildBody silhouette baseThickness in
  let numStr := js_substring (js_String number) 0 2 in
  let numberGeom := buildText fnt numStr (number_opts baseThickness) in
  let nameStr := js_substring (js_toUpperCase (js_String playerName)) 0 14 in
  let nameGeom := buildText fnt nameStr (name_opts baseThickness) in
  let trimGeom := if js_truthy showTrim
                  then Some (buildTrim silhouette baseThickness trimW textH) else None in
  [(lit "body", Some bodyGeom); (lit "number", numberGeom);
   (lit "name", nameGeom); (lit "trim", trimGeom)].

(** [geometries[id]]: a missing key reads as [undefined]. *)
Definition lookup_region (rm : region_map) (id : list Z) : option geom3 :=
  match find (fun kv => js_str_eqb (fst kv) id) rm with
  | Some (_, g) => g
  | None => None
  end.

(** ** Consumers of the region map *)

Record color_region : Type := { rid : list Z }.

(** [loadGeometries]: the [(region id, mesh positions)] pairs added to the
    scene.  [tessellate] stands for JSCAD's own [geom3] polygon list. *)
Definition loadGeometries (tessellate : geom3 -> option (list face))
    (colorRegions : list color_region) (geometries : region_map) : list (list Z * list R) :=
  flat_map (fun region =>
              match lookup_region geometries (rid region) with
              | None => []
              | Some g => [(rid region, jscadToThree_positions (tessellate g))]
              end) colorRegions.

(** [`${design.id}__${region.id}.stl`] *)
Definition export_filename (design_id region_id : list Z) : list Z :=
  design_id ++ lit "__" ++ region_id ++ lit ".stl".

(** [exportRegionSTL]: the name of the downloaded file, if any. *)
Definition exportRegionSTL (design_id : list Z) (region : color_region)
    (geometry : option geom3) : list (list Z) :=
  match geometry with
  | None => []
  | Some _ => [export_filename design_id (rid region)]
  end.

(** [exportAllSTL]: the names of the downloaded files, in order. *)
Definition exportAllSTL (design_id : list Z) (colorRegions : list color_region)
    (geometries : region_map) : list (list Z) :=
  flat_map (fun region =>
              match lookup_region geometries (rid region) with
              | None => []
              | Some g => exportRegionSTL design_id region (Some g)
              end) colorRegions.

(** The color regions of the basketball jersey design ([config.js]). *)
Definition jersey_regions : list color_region :=
  [ {| rid := lit "body" |}; {| rid := lit "number" |};
    {| rid := lit "name" |}; {| rid := lit "trim" |} ].

(** A font without glyphs, used in concrete runs. *)
Definition no_glyph_font : font :=
  {| Glyph := unit; unitsPerEm := 1000; stringToGlyphs := fun _ => [];
     getPath := fun _ _ => []; advanceWidth := fun _ => None;
     getKerningValue := fun _ _ => 0 |}.

(** Inputs with a blank player name ([" "]) and every other field missing. *)
Definition blank_name_inputs : inputs :=
  {| in_playerName := Some (JStr [32%Z]); in_number := None; in_jerseyStyle := None;
     in_showTrim := None; in_baseThickness := None |}.

(** ** Further pieces of the pipeline *)

(** *** Reference notions used to state properties of [geometry.js] *)

(** Translation of every point of an outline by [v]. *)
Definition translate_pts (v : point) (pts : polygon) : polygon :=
  map (fun p => (fst p + fst v, snd p + snd v)) pts.

(** The unit offset direction [(bx / lb, by / lb)] of [shrinkPolygon] as a
    function of the two incident edge vectors. *)
Definition shrink_dir (e1x e1y e2x e2y : R) : point :=
  let n1x := e1y in
  let n1y := - e1x in
  let n2x := e2y in
  let n2y := - e2x in
  let l1 := or1 (sqrt (n1x * n1x + n1y * n1y)) in
  let l2 := or1 (sqrt (n2x * n2x + n2y * n2y)) in
  let bx := n1x / l1 + n2x / l2 in
  let by_ := n1y / l1 + n2y / l2 in
  let lb := or1 (sqrt (bx * bx + by_ * by_)) in
  (bx / lb, by_ / lb).

(** Reflection in the vertical centre line [x = W / 2 = 50] of the jersey. *)
Definition mirror_x (p : point) : point := (100 - fst p, snd p).

(** The [(cx, cy)] pen of [pathToContours] is the last point of the open
    contour buffer, if there is one. *)
Definition pen_on_buffer (st : path_state) : Prop :=
  ps_current st = [] \/ last (ps_current st) (0, 0) = (ps_cx st, ps_cy st).

(** Contours already emitted before a state, put in front of its own. *)
Definition prepend_contours (cs : list (list point)) (st : path_state) : path_state :=
  {| ps_contours := cs ++ ps_contours st; ps_current := ps_current st;
     ps_cx := ps_cx st; ps_cy := ps_cy st |}.

Fixpoint sumR (l : list R) : R :=
  match l with
  | [] => 0
  | x :: l' => x + sumR l'
  end.

(** Width of a run of glyphs: the scaled advances plus the scaled kerning
    of each pair of neighbouring glyphs. *)
Definition text_advance (f : font) (size scale : R) (gs : list (Glyph f)) : R :=
  scale * (sumR (map (fun g => advance f g size) gs)
           + sumR (map (fun gg => getKerningValue f (fst gg) (snd gg)) (combine gs (tl gs)))).

(** *** [jscadToThreeGeometry] on arrays (viewer.js) *)

(** A JSCAD value handed to the viewer: a [geom3] (its [polygons] field,
    [None] when missing) or an array of such values. *)
Inductive jscad_geom : Type :=
  | JGeom3 (polygons : option (list face))
  | JArray (gs : list jscad_geom).

(** [for (let i = 0; i < pos.count; i++) allPositions.push(pos.getX(i),
    pos.getY(i), pos.getZ(i))] on a [Float32BufferAttribute(positions, 3)],
    whose [count] is [positions.length / 3] rounded down. *)
Definition copy_xyz (pos : list R) : list R :=
  flat_map (fun i => [nth (3 * i) pos 0; nth (3 * i + 1) pos 0; nth (3 * i + 2) pos 0])
           (seq 0 (Nat.div (List.length pos) 3)).

(** The [position] attribute of the returned geometry (normals are
    recomputed by [computeVertexNormals] and not modelled). *)
Fixpoint jscadToThreeGeometry (g : jscad_geom) : list R :=
  match g with
  | JGeom3 polygons => jscadToThree_positions polygons
  | JArray gs =>
      (fix merge (l : list jscad_geom) : list R :=
         match l with
         | [] => []
         | g' :: l' => copy_xyz (jscadToThreeGeometry g') ++ merge l'
         end) gs
  end.

(** *** Color panel (color-manager.js) *)

Open Scope Z_scope.

(** A color region as the color panel reads it: [id] and [default]. *)
Record color_cfg : Type := { cc_id : list Z; cc_default : option (list Z) }.

(** The module-level [_colors] object as its key-value pairs, each key
    once.  Only lookups ([obj_get]) are used below: a JS object enumerates
    array-index keys before the others, an order this list does not keep. *)
Definition color_map := list (list Z * list Z).

(** [obj[k] = v]: overwrite in place, or add the key at the end. *)
Fixpoint obj_set (m : color_map) (k v : list Z) : color_map :=
  match m with
  | [] => [(k, v)]
  | (k', v') :: m' => if js_str_eqb k' k then (k', v) :: m' else (k', v') :: obj_set m' k v
  end.

(** [delete obj[k]] *)
Definition obj_delete (m : color_map) (k : list Z) : color_map :=
  filter (fun kv => negb (js_str_eqb (fst kv) k)) m.

Definition obj_get (m : color_map) (k : list Z) : option (list Z) :=
  match find (fun kv => js_str_eqb (fst kv) k) m with
  | Some (_, v) => Some v
  | None => None
  end.

(** [region.default || '#888888'] *)
Definition or_grey (d : option (list Z)) : list Z :=
  match d with
  | Some ((_ :: _) as s) => s
  | _ => lit "#888888"
  end.

(** The effect of [buildColorPanel] on [_colors]; [None] is a design
    without [colorRegions]. *)
Definition buildColorPanel (colors : color_map) (colorRegions : option (list color_cfg))
  : color_map :=
  let cleared := fold_left obj_delete (map fst colors) colors in
  match colorRegions with
  | None | Some [] => cleared
  | Some rs => fold_left (fun m r => obj_set m (cc_id r) (or_grey (cc_default r))) rs cleared
  end.

(** [getColors] returns a shallow copy, [setColor] writes one key. *)
Definition getColors (colors : color_map) : color_map := colors.

Definition setColor (colors : color_map) (regionId hex : list Z) : color_map :=
  obj_set colors regionId hex.

(** *** Form groups (ui-builder.js) *)

(** The children [buildForm] appends to an input's [group] element. *)
Inductive form_node : Type :=
  | NLabel | NControl | NCheckWrap | NValueDisplay | NHint.

Definition form_node_eqb (a b : form_node) : bool :=
  match a, b with
  | NLabel, NLabel | NControl, NControl | NCheckWrap, NCheckWrap
  | NValueDisplay, NValueDisplay | NHint, NHint => true
  | _, _ => false
  end.

(** DOM [appendChild]: a node that already is a child is moved to the end. *)
Definition append_child (children : list form_node) (n : form_node) : list form_node :=
  filter (fun c => negb (form_node_eqb c n)) children ++ [n].

(** An entry of [design.inputs]: its [type] and [hint] ([None] when
    missing). *)
Record form_input : Type := { fi_type : option (list Z); fi_hint : option (list Z) }.

(** [inp.type === s] *)
Definition type_is (t : option (list Z)) (s : string) : bool :=
  match t with
  | Some t' => js_str_eqb t' (lit s)
  | None => false
  end.

Definition form_group_children (inp : form_input) : list form_node :=
  let t := fi_type inp in
  let g1 := if negb (type_is t "checkbox") then append_child [] NLabel else [] in
  let g2 :=
    if type_is t "select" then g1
    else if type_is t "checkbox" then append_child g1 NCheckWrap
    else if type_is t "range" then
      append_child (append_child (append_child g1 NLabel) NControl) NValueDisplay
    else g1 in
  let g3 := if negb (type_is t "range") && negb (type_is t "checkbox")
            then append_child g2 NControl else g2 in
  match fi_hint inp with
  | Some (_ :: _) => append_child g3 NHint
  | _ => g3
  end.

Close Scope Z_scope.

(** ** Facts about the offsetter *)

Lemma or1_nonzero : forall l, or1 l <> 0.
Proof.
  intro l; unfold or1; destruct (Req_EM_T l 0); [lra | assumption].
Qed.

Lemma or1_pos_eq : forall l, l <> 0 -> or1 l = l.
Proof.
  intros l H; unfold or1; destruct (Req_EM_T l 0); [contradiction | reflexivity].
Qed.

Lemma or1_zero : or1 0 = 1.
Proof.
  unfold or1; destruct (Req_EM_T 0 0); [reflexivity | contradiction].
Qed.

Lemma sqrt_of_square : forall x a, x = a * a -> 0 <= a -> sqrt x = a.
Proof.
  intros x a -> Ha; apply sqrt_square; exact Ha.
Qed.


Lemma sqrt_arg_eq : forall x y, x = y -> sqrt x = sqrt y.
Proof. intros x y ->; reflexivity. Qed.

Lemma sqrt2_pos : 0 < sqrt 2.
Proof. apply sqrt_lt_R0; lra. Qed.

Lemma sqrt2_sq : sqrt 2 * sqrt 2 = 2.
Proof. apply sqrt_sqrt; lra. Qed.

(** Evaluate the [Math.sqrt(...) || 1] lengths of an axis-aligned unit
    polygon: edge normals have length [1], bisectors length [sqrt 2]. *)
Ltac norm_sqrt :=
  repeat match goal with
  | |- context [sqrt ?X] =>
      lazymatch X with
      | 2 => fail
      | _ => first [ rewrite (sqrt_of_square X 1) by lra
                   | rewrite (sqrt_arg_eq X 2) by (field || lra) ]
      end
  end.

Ltac norm_or1 :=
  repeat first [ rewrite (or1_pos_eq 1) by lra
               | rewrite (or1_pos_eq (sqrt 2)) by (pose proof sqrt2_pos; lra) ].

Ltac split_points :=
  repeat match goal with
  | |- (_ :: _) = (_ :: _) => apply (f_equal2 (@cons _))
  | |- (_, _) = (_, _) => apply (f_equal2 (@pair _ _))
  | |- @nil _ = @nil _ => reflexivity
  end.

Lemma dot_self_pos : forall a b : point, a <> b -> 0 < dot (rnormal a b) (rnormal a b).
Proof.
  intros [ax ay] [bx by_] H; unfold dot, rnormal; simpl.
  destruct (Req_EM_T ax bx) as [->|Hx]; destruct (Req_EM_T ay by_) as [->|Hy].
  - contradiction.
  - assert (0 < (by_ - ay) * (by_ - ay)) by (apply Rsqr_pos_lt; lra). nra.
  - assert (0 < (bx - ax) * (bx - ax)) by (apply Rsqr_pos_lt; lra). nra.
  - assert (0 < (bx - ax) * (bx - ax)) by (apply Rsqr_pos_lt; lra). nra.
Qed.

Lemma cauchy_schwarz2 : forall u v : point, Rabs (dot u v) <= norm u * norm v.
Proof.
  intros [x1 y1] [x2 y2]; unfold norm, dot; simpl.
  rewrite <- sqrt_mult by nra.
  rewrite <- sqrt_Rsqr_abs. apply sqrt_le_1_alt.
  pose proof (Rle_0_sqr (x1 * y2 - x2 * y1)). unfold Rsqr in *. nra.
Qed.

(** One offset vertex, for non-degenerate incident edges that are not
    exactly opposite. *)
Lemma shrink_vertex_offset (prev p next : point) (d : R) :
  prev <> p -> next <> p -> -1 < normal_cos prev p next ->
  let q := shrink_vertex prev p next d in
  let s := sqrt ((1 + normal_cos prev p next) / 2) in
  side_dist prev p q = d * s /\ side_dist p next q = d * s /\
  0 < s <= 1 /\ norm (psub q p) = Rabs d.
Proof.
  intros Hprev Hnext Hc q s.
  pose proof (dot_self_pos prev p Hprev) as HQ1.
  assert (HQ2 : 0 < dot (rnormal p next) (rnormal p next))
    by (apply dot_self_pos; congruence).
  pose proof (cauchy_schwarz2 (rnormal prev p) (rnormal p next)) as HCS.
  unfold normal_cos, side_dist, norm in *.
  destruct prev as [ax ay], p as [px py], next as [nx ny].
  unfold q, shrink_vertex, rnormal, dot, psub in *; simpl in *. clear q.
  set (x1 := py - ay) in *. set (y1 := - (px - ax)) in *.
  set (x2 := ny - py) in *. set (y2 := - (nx - px)) in *.
  set (L1 := sqrt (x1 * x1 + y1 * y1)) in *.
  set (L2 := sqrt (x2 * x2 + y2 * y2)) in *.
  assert (HL1 : 0 < L1) by (apply sqrt_lt_R0; lra).
  assert (HL2 : 0 < L2) by (apply sqrt_lt_R0; lra).
  assert (HL1s : L1 * L1 = x1 * x1 + y1 * y1) by (apply sqrt_sqrt; lra).
  assert (HL2s : L2 * L2 = x2 * x2 + y2 * y2) by (apply sqrt_sqrt; lra).
  rewrite !(or1_pos_eq L1), !(or1_pos_eq L2) by lra.
  set (c := (x1 * x2 + y1 * y2) / (L1 * L2)) in *.
  assert (Hc1 : c <= 1).
  { assert (HD : x1 * x2 + y1 * y2 <= L1 * L2)
      by (eapply Rle_trans; [apply Rle_abs | exact HCS]).
    unfold c. apply (Rmult_le_reg_r (L1 * L2)); [nra|].
    unfold Rdiv. rewrite Rmult_assoc, Rinv_l by nra. lra. }
  assert (Hperp1 : (px - ax) * x1 + (py - ay) * y1 = 0) by (unfold x1, y1; ring).
  set (bx := x1 / L1 + x2 / L2) in *. set (by_ := y1 / L1 + y2 / L2) in *.
  assert (Hss : s * s = (1 + c) / 2) by (apply sqrt_sqrt; lra).
  assert (Hs : 0 < s) by (apply sqrt_lt_R0; lra).
  assert (HB : bx * bx + by_ * by_ = 2 * s * (2 * s)).
  { transitivity ((x1 * x1 + y1 * y1) / (L1 * L1) + (x2 * x2 + y2 * y2) / (L2 * L2)
                  + 2 * c); [unfold bx, by_, c; field; lra|].
    rewrite <- HL1s, <- HL2s.
    replace (L1 * L1 / (L1 * L1)) with 1 by (field; lra).
    replace (L2 * L2 / (L2 * L2)) with 1 by (field; lra). nra. }
  rewrite (sqrt_of_square _ (2 * s) HB) by lra.
  rewrite (or1_pos_eq (2 * s)) by lra.
  assert (Hb1 : bx * x1 + by_ * y1 = L1 * (2 * (s * s))).
  { transitivity ((x1 * x1 + y1 * y1) / L1 + (x1 * x2 + y1 * y2) / L2);
      [unfold bx, by_; field; lra|].
    rewrite Hss, <- HL1s. unfold c. field; lra. }
  assert (Hb2 : bx * x2 + by_ * y2 = L2 * (2 * (s * s))).
  { transitivity ((x1 * x2 + y1 * y2) / L1 + (x2 * x2 + y2 * y2) / L2);
      [unfold bx, by_; field; lra|].
    rewrite Hss, <- HL2s. unfold c. field; lra. }
  split; [|split; [|split]].
  - transitivity (((px - ax) * x1 + (py - ay) * y1 + d / (2 * s) * (bx * x1 + by_ * y1)) / L1);
      [field; lra|].
    rewrite Hperp1, Hb1. field; lra.
  - transitivity ((d / (2 * s) * (bx * x2 + by_ * y2)) / L2); [field; lra|].
    rewrite Hb2. field; lra.
  - split; [exact Hs|]. rewrite <- sqrt_1. apply sqrt_le_1_alt. lra.
  - rewrite <- sqrt_Rsqr_abs. apply sqrt_arg_eq. unfold Rsqr.
    transitivity (d * d * (bx * bx + by_ * by_) / (2 * s * (2 * s))); [field; lra|].
    rewrite HB. field; lra.
Qed.

Lemma nth_mapi_from {A B} (f : nat -> A -> B) (l : list A) (a : A) (b : B) :
  forall i k, (i < List.length l)%nat -> nth i (mapi_from f k l) b = f (k + i)%nat (nth i l a).
Proof.
  induction l as [|x l IH]; intros i k Hi; simpl in Hi; [lia|].
  destruct i as [|i]; simpl.
  - now rewrite Nat.add_0_r.
  - rewrite IH by lia. now rewrite Nat.add_succ_r.
Qed.

Lemma nth_shrinkPolygon (pts : polygon) (d : R) (i : nat) :
  (i < List.length pts)%nat ->
  nth i (shrinkPolygon pts d) (0, 0) =
  shrink_vertex (nth ((i + List.length pts - 1) mod List.length pts) pts (0, 0))
                (nth i pts (0, 0))
                (nth ((i + 1) mod List.length pts) pts (0, 0)) d.
Proof.
  intro Hi. unfold shrinkPolygon, mapi. now rewrite (nth_mapi_from _ _ (0, 0)).
Qed.

(** Offsetting the clockwise unit square by [2] moves every corner by
    [2 / sqrt 2 = sqrt 2] along both axes, past the opposite side. *)
Lemma shrink_cw_unit_square :
  shrinkPolygon cw_unit_square 2 =
  [(sqrt 2, sqrt 2); (sqrt 2, 1 - sqrt 2); (1 - sqrt 2, 1 - sqrt 2); (1 - sqrt 2, sqrt 2)].
Proof.
  unfold shrinkPolygon, mapi, cw_unit_square; simpl; unfold shrink_vertex; simpl.
  norm_sqrt; norm_or1; norm_sqrt; norm_or1.
  pose proof sqrt2_pos; pose proof sqrt2_sq.
  split_points; (apply Rmult_eq_reg_r with (sqrt 2); [field_simplify; nra | lra]).
Qed.

(** ** Claims *)

(** C1 (counterexample): offsetting the clockwise unit square by [d = 2]
    yields a polygon of area [(2 sqrt 2 - 1)^2 > 1]: the area grows. *)
Lemma C1_area_grows_cw_square :
  area (shrinkPolygon cw_unit_square 2) > area cw_unit_square.
Proof.
  rewrite shrink_cw_unit_square.
  unfold area, area2, cw_unit_square; simpl.
  pose proof sqrt2_pos; pose proof sqrt2_sq.
  rewrite (Rabs_left (_ + _)) by nra.
  rewrite (Rabs_left (_ + _)) by lra.
  nra.
Qed.

(** C1 (amended): for every polygon, offset [d] and vertex [i] whose two
    incident edges have non-zero length and are not exactly opposite,
    [shrinkPolygon] moves the vertex by exactly [|d|], to a point at signed
    distance [d * sqrt((1 + cos phi) / 2)] (at most [d]) on the right-hand
    side of both incident edge lines, [phi] being the angle between the
    two edge normals. *)
Theorem shrinkPolygon_offset_vertex (pts : polygon) (d : R) (i : nat) :
  (i < List.length pts)%nat ->
  let n := List.length pts in
  let prev := nth ((i + n - 1) mod n) pts (0, 0) in
  let p := nth i pts (0, 0) in
  let next := nth ((i + 1) mod n) pts (0, 0) in
  prev <> p -> next <> p -> -1 < normal_cos prev p next ->
  let q := nth i (shrinkPolygon pts d) (0, 0) in
  let s := sqrt ((1 + normal_cos prev p next) / 2) in
  side_dist prev p q = d * s /\ side_dist p next q = d * s /\
  0 < s <= 1 /\ norm (psub q p) = Rabs d.
Proof.
  intros Hi n prev p next Hprev Hnext Hc q s.
  unfold q. rewrite nth_shrinkPolygon by exact Hi.
  exact (shrink_vertex_offset prev p next d Hprev Hnext Hc).
Qed.

Lemma shrinkPolygon_offset_vertex_witness :
  (0 < List.length cw_unit_square)%nat /\
  (1, 0) <> (0, 0) /\ (0, 1) <> (0, 0) /\ -1 < normal_cos (1, 0) (0, 0) (0, 1) /\
  side_dist (1, 0) (0, 0) (nth 0 (shrinkPolygon cw_unit_square 1) (0, 0))
  = 1 * sqrt ((1 + normal_cos (1, 0) (0, 0) (0, 1)) / 2).
Proof.
  assert (Hc : -1 < normal_cos (1, 0) (0, 0) (0, 1)).
  { unfold normal_cos. replace (dot (rnormal (1, 0) (0, 0)) (rnormal (0, 0) (0, 1))) with 0
      by (unfold dot, rnormal; simpl; ring).
    unfold Rdiv; rewrite Rmult_0_l; lra. }
  assert (H10 : ((1, 0) : point) <> (0, 0)) by (intro H; injection H; lra).
  assert (H01 : ((0, 1) : point) <> (0, 0)) by (intro H; injection H; lra).
  split; [simpl; lia|]. split; [exact H10|]. split; [exact H01|]. split; [exact Hc|].
  exact (proj1 (shrinkPolygon_offset_vertex cw_unit_square 1 0 ltac:(simpl; lia) H10 H01 Hc)).
Defined.

(** C2 (code defect): for every style selector [jerseyPoints] returns 13
    points starting at the bottom-left corner [(0, 0)], but their shoelace
    signed area is positive: in the y-up layout of the silhouette the
    points run counter-clockwise, whereas the source comment and the spec
    say clockwise. *)
Theorem jerseyPoints_counter_clockwise (style : list Z) :
  List.length (jerseyPoints style) = 13%nat /\
  hd_error (jerseyPoints style) = Some (0, 0) /\
  area2 (jerseyPoints style) > 0.
Proof.
  unfold jerseyPoints.
  destruct (js_str_eqb style (lit "Retro")), (js_str_eqb style (lit "College")),
           (js_str_eqb style (lit "NBA Modern"));
    unfold jersey_outline, area2; simpl; (split; [reflexivity | split; [reflexivity | lra]]).
Qed.

(** C7: every style selector other than ["NBA Modern"], ["College"] and
    ["Retro"] yields the outline of the default tuple: shoulder drop 14,
    armhole width 18, armhole depth 24, collar width 16, collar depth 10. *)
Theorem jerseyPoints_unknown_style (style : list Z) :
  style <> lit "NBA Modern" -> style <> lit "College" -> style <> lit "Retro" ->
  jerseyPoints style = jersey_outline 14 18 24 16 10.
Proof.
  intros HN HC HR. unfold jerseyPoints, js_str_eqb.
  destruct (list_eq_dec Z.eq_dec style (lit "Retro")); [contradiction|].
  destruct (list_eq_dec Z.eq_dec style (lit "College")); [contradiction|].
  destruct (list_eq_dec Z.eq_dec style (lit "NBA Modern")); [contradiction|].
  reflexivity.
Qed.

Lemma jerseyPoints_unknown_style_witness :
  lit "Modern" <> lit "NBA Modern" /\ lit "Modern" <> lit "College" /\
  lit "Modern" <> lit "Retro" /\
  jerseyPoints (lit "Modern") = jersey_outline 14 18 24 16 10.
Proof.
  assert (H1 : lit "Modern" <> lit "NBA Modern") by (simpl; congruence).
  assert (H2 : lit "Modern" <> lit "College") by (simpl; congruence).
  assert (H3 : lit "Modern" <> lit "Retro") by (simpl; congruence).
  split; [exact H1|]. split; [exact H2|]. split; [exact H3|].
  exact (jerseyPoints_unknown_style (lit "Modern") H1 H2 H3).
Defined.

(** C3 (counterexample): a move followed by two lines back to the same
    point and a close emits a contour of three equal points. *)
Lemma C3_repeated_points_emitted :
  pathToContours [CmdM 0 0; CmdL 0 0; CmdL 0 0; CmdZ] 1 = [[(0, 0); (0, 0); (0, 0)]] /\
  ~ NoDup [((0, 0) : point); (0, 0); (0, 0)].
Proof.
  split; [reflexivity|].
  intro H; inversion H as [|x l Hnotin Hnd]; subst; apply Hnotin; left; reflexivity.
Qed.

Lemma flush_keeps_long (P : list point -> Prop) cs cur :
  Forall P cs -> ((3 <= List.length cur)%nat -> P cur) -> Forall P (flush cs cur).
Proof.
  intros Hcs Hcur; unfold flush.
  destruct (Nat.ltb_spec 2 (List.length cur)); [|exact Hcs].
  apply Forall_app; split; [exact Hcs|]. constructor; [apply Hcur; lia | constructor].
Qed.

(** C3 (amended): every contour emitted by [pathToContours] has at least
    three points; buffers of fewer points at a move, a close or the end of
    the path are dropped.  The points need not be distinct. *)
Theorem pathToContours_min_three (commands : list cmd) (scale : R) :
  Forall (fun c => (3 <= List.length c)%nat) (pathToContours commands scale).
Proof.
  unfold pathToContours.
  set (P := fun c : list point => (3 <= List.length c)%nat).
  assert (Hinv : forall cs st, Forall P (ps_contours st) ->
            Forall P (ps_contours (fold_left path_step cs st))).
  { induction cs as [|c cs IH]; intros st Hst; simpl; [exact Hst|].
    apply IH. destruct c; simpl; try exact Hst; apply flush_keeps_long; auto. }
  apply flush_keeps_long; [apply Hinv; constructor | auto].
Qed.

(** C4: with the fixed step count [8], both samplers return exactly the
    eight Bezier points at [t = i/8], [i = 1..8] (the start point at
    [t = 0] is not sampled), and the last one is the segment's end point. *)
Theorem samplers_bezier (x0 y0 x1 y1 x2 y2 x3 y3 : R) :
  sampleCubic x0 y0 x1 y1 x2 y2 x3 y3 BEZIER_STEPS =
    map (fun i => cubic_bezier (x0, y0) (x1, y1) (x2, y2) (x3, y3) (INR i / 8)) (seq 1 8) /\
  List.length (sampleCubic x0 y0 x1 y1 x2 y2 x3 y3 BEZIER_STEPS) = 8%nat /\
  last (sampleCubic x0 y0 x1 y1 x2 y2 x3 y3 BEZIER_STEPS) (x0, y0) = (x3, y3) /\
  sampleQuadratic x0 y0 x1 y1 x2 y2 BEZIER_STEPS =
    map (fun i => quad_bezier (x0, y0) (x1, y1) (x2, y2) (INR i / 8)) (seq 1 8) /\
  List.length (sampleQuadratic x0 y0 x1 y1 x2 y2 BEZIER_STEPS) = 8%nat /\
  last (sampleQuadratic x0 y0 x1 y1 x2 y2 BEZIER_STEPS) (x0, y0) = (x2, y2).
Proof.
  unfold sampleCubic, sampleQuadratic, BEZIER_STEPS.
  replace (INR 8) with 8 by (simpl; lra).
  split; [|split; [|split; [|split; [|split]]]].
  - apply map_ext; intro i. unfold cubic_bezier, quad_bezier, lerp; simpl.
    f_equal; ring.
  - now rewrite length_map, length_seq.
  - simpl. f_equal; field.
  - apply map_ext; intro i. unfold quad_bezier, lerp; simpl. f_equal; ring.
  - now rewrite length_map, length_seq.
  - simpl. f_equal; field.
Qed.

Lemma rnormal_same (p : point) : rnormal p p = (0, 0).
Proof. unfold rnormal; f_equal; ring. Qed.

Lemma or1_sqrt_zero : or1 (sqrt (0 * 0 + 0 * 0)) = 1.
Proof. replace (0 * 0 + 0 * 0) with 0 by ring. rewrite sqrt_0. apply or1_zero. Qed.

Lemma unit_len (x y L : R) : 0 < L -> L * L = x * x + y * y ->
  or1 (sqrt ((x / L) * (x / L) + (y / L) * (y / L))) = 1.
Proof.
  intros HL HLs. rewrite (sqrt_of_square _ 1); [apply or1_pos_eq; lra| |lra].
  transitivity ((x * x + y * y) / (L * L)); [field; lra|]. rewrite <- HLs; field; lra.
Qed.
(** A vertex whose incoming edge has length zero moves along the unit
    normal of its outgoing edge, and symmetrically. *)
Lemma shrink_vertex_prev_same (p next : point) (d : R) :
  0 < dot (rnormal p next) (rnormal p next) ->
  shrink_vertex p p next d =
  (fst p + fst (rnormal p next) / norm (rnormal p next) * d,
   snd p + snd (rnormal p next) / norm (rnormal p next) * d).
Proof.
  intros Hn. unfold norm in *. unfold shrink_vertex, dot, rnormal in *; simpl in *.
  set (x := snd next - snd p) in *. set (y := - (fst next - fst p)) in *.
  set (L := sqrt (x * x + y * y)).
  assert (HL : 0 < L) by (apply sqrt_lt_R0; exact Hn).
  assert (HLs : L * L = x * x + y * y) by (apply sqrt_sqrt; lra).
  replace (snd p - snd p) with 0 by ring. replace (- (fst p - fst p)) with 0 by ring.
  rewrite or1_sqrt_zero, (or1_pos_eq L) by lra.
  replace (0 / 1 + x / L) with (x / L) by (field; lra).
  replace (0 / 1 + y / L) with (y / L) by (field; lra).
  rewrite (unit_len x y L HL HLs). f_equal; field; lra.
Qed.
Lemma shrink_vertex_next_same (prev p : point) (d : R) :
  0 < dot (rnormal prev p) (rnormal prev p) ->
  shrink_vertex prev p p d =
  (fst p + fst (rnormal prev p) / norm (rnormal prev p) * d,
   snd p + snd (rnormal prev p) / norm (rnormal prev p) * d).
Proof.
  intros Hn. unfold norm in *. unfold shrink_vertex, dot, rnormal in *; simpl in *.
  set (x := snd p - snd prev) in *. set (y := - (fst p - fst prev)) in *.
  set (L := sqrt (x * x + y * y)).
  assert (HL : 0 < L) by (apply sqrt_lt_R0; exact Hn).
  assert (HLs : L * L = x * x + y * y) by (apply sqrt_sqrt; lra).
  replace (snd p - snd p) with 0 by ring. replace (- (fst p - fst p)) with 0 by ring.
  rewrite or1_sqrt_zero, (or1_pos_eq L) by lra.
  replace (x / L + 0 / 1) with (x / L) by (field; lra).
  replace (y / L + 0 / 1) with (y / L) by (field; lra).
  rewrite (unit_len x y L HL HLs). f_equal; field; lra.
Qed.
Lemma shrink_vertex_all_same (p : point) (d : R) : shrink_vertex p p p d = p.
Proof.
  unfold shrink_vertex.
  replace (snd p - snd p) with 0 by ring. replace (- (fst p - fst p)) with 0 by ring.
  rewrite or1_sqrt_zero.
  replace (0 / 1 + 0 / 1) with 0 by field.
  rewrite or1_sqrt_zero. destruct p; simpl; f_equal; field.
Qed.

Lemma chk_div_nonzero (a b : R) : b <> 0 -> chk_div a b = Some (a / b).
Proof. intro H. unfold chk_div. destruct (Req_EM_T b 0); [contradiction | reflexivity]. Qed.

Lemma chk_sqrt_nonneg (x : R) : 0 <= x -> chk_sqrt x = Some (sqrt x).
Proof. intro H. unfold chk_sqrt. destruct (Rlt_dec x 0); [lra | reflexivity]. Qed.

Lemma or1_neq0 (l : R) : or1 l <> 0.
Proof. unfold or1. destruct (Req_EM_T l 0); [lra | assumption]. Qed.

Lemma sumsq_nonneg (x y : R) : 0 <= x * x + y * y.
Proof. nra. Qed.

Lemma shrink_vertex_checked_ok (prev p next : point) (d : R) :
  shrink_vertex_checked prev p next d = Some (shrink_vertex prev p next d).
Proof.
  unfold shrink_vertex_checked, shrink_vertex.
  repeat (first [ rewrite chk_sqrt_nonneg by apply sumsq_nonneg
                | rewrite chk_div_nonzero by apply or1_neq0 ]; cbn [obind]).
  reflexivity.
Qed.

Lemma all_some_mapi_from {A B : Type} (g : nat -> A -> option B) (f : nat -> A -> B)
  (l : list A) :
  (forall i x, g i x = Some (f i x)) ->
  forall k, all_some (mapi_from g k l) = Some (mapi_from f k l).
Proof.
  intro Hg. induction l as [|x l IH]; intro k; simpl; [reflexivity|].
  now rewrite Hg, IH.
Qed.

Lemma shrinkPolygon_checked_ok (pts : polygon) (d : R) :
  shrinkPolygon_checked pts d = Some (shrinkPolygon pts d).
Proof.
  unfold shrinkPolygon_checked, shrinkPolygon, mapi. cbv zeta.
  apply all_some_mapi_from. intros i x. apply shrink_vertex_checked_ok.
Qed.

(** A hairpin: [next] lies on the ray from [p] through [prev]. *)
Lemma shrink_vertex_hairpin (prev p : point) (t d : R) :
  prev <> p -> 0 < t ->
  shrink_vertex prev p (fst p - t * (fst p - fst prev), snd p - t * (snd p - snd prev)) d = p.
Proof.
  intros Hne Ht. destruct prev as [x0 y0], p as [x1 y1].
  unfold shrink_vertex; simpl.
  assert (HX : 0 < (y1 - y0) * (y1 - y0) + - (x1 - x0) * - (x1 - x0)).
  { destruct (Req_dec (x1 - x0) 0), (Req_dec (y1 - y0) 0);
      [exfalso; apply Hne; f_equal; lra | nra | nra | nra]. }
  set (L := sqrt ((y1 - y0) * (y1 - y0) + - (x1 - x0) * - (x1 - x0))).
  assert (HL : 0 < L) by (apply sqrt_lt_R0; exact HX).
  replace ((y1 - t * (y1 - y0) - y1) * (y1 - t * (y1 - y0) - y1) +
           - (x1 - t * (x1 - x0) - x1) * - (x1 - t * (x1 - x0) - x1))
    with ((t * t) * ((y1 - y0) * (y1 - y0) + - (x1 - x0) * - (x1 - x0))) by ring.
  rewrite sqrt_mult by nra. rewrite sqrt_square by lra. fold L.
  rewrite (or1_pos_eq L), (or1_pos_eq (t * L)) by nra.
  replace ((y1 - y0) / L + (y1 - t * (y1 - y0) - y1) / (t * L)) with 0 by (field; lra).
  replace (- (x1 - x0) / L + - (x1 - t * (x1 - x0) - x1) / (t * L)) with 0 by (field; lra).
  rewrite or1_sqrt_zero. f_equal; field.
Qed.

Lemma chk_div_zero (a : R) : chk_div a 0 = None.
Proof. unfold chk_div. destruct (Req_EM_T 0 0); [reflexivity | lra]. Qed.

(** Without the [|| 1] guards, a zero-length outgoing edge divides by zero. *)
Lemma shrink_vertex_unguarded_next_same (prev p : point) (d : R) :
  shrink_vertex_unguarded_checked prev p p d = None.
Proof.
  unfold shrink_vertex_unguarded_checked.
  rewrite !chk_sqrt_nonneg by apply sumsq_nonneg. cbn [obind].
  replace ((snd p - snd p) * (snd p - snd p) + - (fst p - fst p) * - (fst p - fst p)) with 0 by ring.
  rewrite sqrt_0.
  destruct (chk_div (snd p - snd prev) (sqrt ((snd p - snd prev) * (snd p - snd prev) +
              - (fst p - fst prev) * - (fst p - fst prev)))); cbn [obind]; [|reflexivity].
  now rewrite chk_div_zero.
Qed.

(** C8: [shrinkPolygon] is total, and with every division and square root
    checked it never divides by zero ([shrinkPolygon_checked] returns the
    result of [shrinkPolygon]; real arithmetic does not model overflow).
    Each zero-length length is replaced by [1]: a vertex with one
    zero-length incident edge moves along the unit normal of the other
    edge, and a vertex whose bisector has length zero (both neighbours
    equal to it, [prev = next], or more generally a hairpin where [next]
    lies on the ray from [p] through [prev]) stays in place. *)
Theorem shrinkPolygon_zero_length_guard (pts : polygon) (d : R) :
  shrinkPolygon_checked pts d = Some (shrinkPolygon pts d) /\
  List.length (shrinkPolygon pts d) = List.length pts /\
  forall i, (i < List.length pts)%nat ->
  let n := List.length pts in
  let prev := nth ((i + n - 1) mod n) pts (0, 0) in
  let p := nth i pts (0, 0) in
  let next := nth ((i + 1) mod n) pts (0, 0) in
  let q := nth i (shrinkPolygon pts d) (0, 0) in
  (prev = p -> next <> p ->
     q = (fst p + fst (rnormal p next) / norm (rnormal p next) * d,
          snd p + snd (rnormal p next) / norm (rnormal p next) * d)) /\
  (next = p -> prev <> p ->
     q = (fst p + fst (rnormal prev p) / norm (rnormal prev p) * d,
          snd p + snd (rnormal prev p) / norm (rnormal prev p) * d)) /\
  (prev = p -> next = p -> q = p) /\
  (prev = next -> q = p) /\
  (forall t, 0 < t -> prev <> p ->
     next = (fst p - t * (fst p - fst prev), snd p - t * (snd p - snd prev)) -> q = p).
Proof.
  split; [apply shrinkPolygon_checked_ok|].
  split.
  { unfold shrinkPolygon, mapi.
    assert (Hl : forall (f : nat -> point -> point) k (l : polygon),
               List.length (mapi_from f k l) = List.length l).
    { intros f k l; revert k; induction l; intro k; simpl; [reflexivity | now rewrite IHl]. }
    apply Hl. }
  intros i Hi n prev p next q.
  assert (Hq : q = shrink_vertex prev p next d)
    by (unfold q; rewrite nth_shrinkPolygon by exact Hi; reflexivity).
  split; [|split; [|split; [|split]]].
  - intros H1 H2. rewrite Hq, H1. apply shrink_vertex_prev_same.
    apply dot_self_pos. intro H; apply H2; symmetry; exact H.
  - intros H1 H2. rewrite Hq, H1. apply shrink_vertex_next_same.
    apply dot_self_pos. exact H2.
  - intros H1 H2. rewrite Hq, H1, H2. apply shrink_vertex_all_same.
  - intro Hpn. rewrite Hq, <- Hpn.
    destruct (Req_EM_T (fst prev) (fst p)) as [E1|E1];
      destruct (Req_EM_T (snd prev) (snd p)) as [E2|E2].
    + assert (Hpp : prev = p) by (destruct prev, p; simpl in *; congruence).
      rewrite Hpp. apply shrink_vertex_all_same.
    + assert (Hne : prev <> p) by (intro H; apply E2; now rewrite H).
      transitivity (shrink_vertex prev p
                      (fst p - 1 * (fst p - fst prev), snd p - 1 * (snd p - snd prev)) d).
      * f_equal. destruct prev; simpl; f_equal; ring.
      * apply shrink_vertex_hairpin; [exact Hne | lra].
    + assert (Hne : prev <> p) by (intro H; apply E1; now rewrite H).
      transitivity (shrink_vertex prev p
                      (fst p - 1 * (fst p - fst prev), snd p - 1 * (snd p - snd prev)) d).
      * f_equal. destruct prev; simpl; f_equal; ring.
      * apply shrink_vertex_hairpin; [exact Hne | lra].
    + assert (Hne : prev <> p) by (intro H; apply E1; now rewrite H).
      transitivity (shrink_vertex prev p
                      (fst p - 1 * (fst p - fst prev), snd p - 1 * (snd p - snd prev)) d).
      * f_equal. destruct prev; simpl; f_equal; ring.
      * apply shrink_vertex_hairpin; [exact Hne | lra].
  - intros t Ht Hne Hn. rewrite Hq, Hn. now apply shrink_vertex_hairpin.
Qed.

(** On a polygon with a repeated point the checked [shrinkPolygon] is
    defined, while the same computation without the guards divides by zero. *)
Lemma shrinkPolygon_zero_length_guard_witness :
  shrinkPolygon_checked [(0, 0); (0, 0); (1, 0)] 1 = Some (shrinkPolygon [(0, 0); (0, 0); (1, 0)] 1) /\
  shrinkPolygon_unguarded_checked [(0, 0); (0, 0); (1, 0)] 1 = None.
Proof.
  split.
  - exact (proj1 (shrinkPolygon_zero_length_guard [(0, 0); (0, 0); (1, 0)] 1)).
  - unfold shrinkPolygon_unguarded_checked, mapi. simpl.
    rewrite shrink_vertex_unguarded_next_same. reflexivity.
Defined.

Lemma fan_loop_closed (verts : list vertex) :
  forall fuel i, (List.length verts - 1 - i <= fuel)%nat ->
  fan_loop verts i fuel =
  flat_map tri_floats
    (map (fun j => (nth 0 verts vertex0, nth j verts vertex0, nth (S j) verts vertex0))
         (seq i (List.length verts - 1 - i))).
Proof.
  induction fuel as [|fuel IH]; intros i Hf; simpl.
  - replace (List.length verts - 1 - i)%nat with 0%nat by lia. reflexivity.
  - destruct (Nat.ltb_spec i (List.length verts - 1)) as [Hlt|Hge].
    + replace (List.length verts - 1 - i)%nat with (S (List.length verts - 1 - S i)) by lia.
      simpl. rewrite IH by lia. now rewrite !app_assoc.
    + replace (List.length verts - 1 - i)%nat with 0%nat by lia. reflexivity.
Qed.

Lemma tri_floats_length (t : vertex * vertex * vertex) : List.length (tri_floats t) = 9%nat.
Proof.
  destruct t as [[a b] c]; destruct a, b, c; reflexivity.
Qed.

(** C5: a face with [n >= 3] vertices contributes exactly the [n - 2] fan
    triangles [(v_0, v_i, v_(i+1))], i.e. [9 (n - 2)] position floats; a
    face with fewer than three vertices or no vertex list contributes
    nothing, and the positions of a geometry are those of its faces in
    order. *)
Theorem jscadToThree_fan (f : face) :
  face_positions f = flat_map tri_floats (fan_triangles f) /\
  List.length (fan_triangles f) =
    match f with
    | Some vs => if (3 <=? List.length vs)%nat then (List.length vs - 2)%nat else 0%nat
    | None => 0%nat
    end /\
  List.length (face_positions f) = (9 * List.length (fan_triangles f))%nat /\
  (forall polygons : option (list face),
     jscadToThree_positions polygons =
     flat_map (fun g => flat_map tri_floats (fan_triangles g))
              (match polygons with Some l => l | None => [] end)).
Proof.
  assert (Hface : forall g, face_positions g = flat_map tri_floats (fan_triangles g)).
  { intros [vs|]; [|reflexivity]. unfold face_positions, fan_triangles.
    destruct (Nat.ltb_spec (List.length vs) 3); destruct (Nat.leb_spec 3 (List.length vs));
      try lia; [reflexivity|].
    rewrite fan_loop_closed by lia.
    replace (List.length vs - 1 - 1)%nat with (List.length vs - 2)%nat by lia. reflexivity. }
  split; [apply Hface|]. split; [|split].
  - destruct f as [vs|]; [|reflexivity]. unfold fan_triangles.
    destruct (3 <=? List.length vs)%nat; [|reflexivity].
    now rewrite length_map, length_seq.
  - rewrite Hface. induction (fan_triangles f) as [|t ts IH]; [reflexivity|].
    simpl. rewrite length_app, tri_floats_length, IH. lia.
  - intro polygons. unfold jscadToThree_positions. apply flat_map_ext. exact Hface.
Qed.

(** *** Text inputs and empty regions *)

Lemma drop_ws_all (s : list Z) : forallb is_js_whitespace s = true -> drop_ws s = [].
Proof.
  induction s as [|u s IH]; simpl; [reflexivity|].
  intro H; apply andb_prop in H as [Hu Hs]; rewrite Hu; exact (IH Hs).
Qed.

Lemma js_trim_blank (s : list Z) : forallb is_js_whitespace s = true -> js_trim s = [].
Proof. intro H; unfold js_trim; rewrite (drop_ws_all s H); reflexivity. Qed.

Lemma buildText_blank (f : font) (text : list Z) (o : text_opts) :
  forallb is_js_whitespace text = true -> buildText f text o = None.
Proof.
  intro H; unfold buildText; rewrite js_trim_blank by exact H.
  simpl; rewrite orb_true_r; reflexivity.
Qed.

Lemma absent_not_loaded (tess : geom3 -> option (list face)) (regions : list color_region)
    (rm : region_map) (id : list Z) :
  lookup_region rm id = None -> ~ In id (map fst (loadGeometries tess regions rm)).
Proof.
  intro Hnone; induction regions as [|r rs IH]; simpl; [tauto|].
  rewrite map_app, in_app_iff. intros [Hin|Hin]; [|exact (IH Hin)].
  destruct (lookup_region rm (rid r)) eqn:Hr; simpl in Hin; [|contradiction].
  destruct Hin as [Heq|[]]. rewrite Heq, Hnone in Hr. discriminate.
Qed.

Lemma export_filename_inj (d a b : list Z) :
  export_filename d a = export_filename d b -> a = b.
Proof.
  unfold export_filename; intro H.
  apply app_inv_head in H; apply app_inv_head in H; apply app_inv_tail in H; exact H.
Qed.

Lemma absent_not_exported (design_id : list Z) (regions : list color_region)
    (rm : region_map) (id : list Z) :
  lookup_region rm id = None -> ~ In (export_filename design_id id) (exportAllSTL design_id regions rm).
Proof.
  intro Hnone; induction regions as [|r rs IH]; simpl; [tauto|].
  rewrite in_app_iff. intros [Hin|Hin]; [|exact (IH Hin)].
  destruct (lookup_region rm (rid r)) eqn:Hr; simpl in Hin; [|contradiction].
  destruct Hin as [Heq|[]]. apply export_filename_inj in Heq.
  rewrite Heq, Hnone in Hr. discriminate.
Qed.

(** C6: for an empty or whitespace-only text [buildText] returns [null];
    a region whose map entry is that [null] gets no mesh in
    [loadGeometries] and no file in [exportAllSTL], and both run through
    without failing. *)
Theorem blank_text_region_absent (fnt : font) (text : list Z) (o : text_opts)
    (tess : geom3 -> option (list face)) (regions : list color_region)
    (rm : region_map) (design_id : list Z) (r : color_region) :
  forallb is_js_whitespace text = true ->
  lookup_region rm (rid r) = buildText fnt text o ->
  buildText fnt text o = None /\
  ~ In (rid r) (map fst (loadGeometries tess regions rm)) /\
  ~ In (export_filename design_id (rid r)) (exportAllSTL design_id regions rm).
Proof.
  intros Hblank Hr.
  assert (Hnone : buildText fnt text o = None) by (apply buildText_blank; exact Hblank).
  rewrite Hnone in Hr.
  split; [exact Hnone|]. split.
  - apply absent_not_loaded; exact Hr.
  - apply absent_not_exported; exact Hr.
Qed.

Lemma blank_text_region_absent_witness :
  forallb is_js_whitespace [32%Z] = true /\
  lookup_region (generate no_glyph_font blank_name_inputs) (lit "name")
    = buildText no_glyph_font [32%Z] (name_opts 3) /\
  ~ In (lit "name")
      (map fst (loadGeometries (fun _ => None) jersey_regions
                                (generate no_glyph_font blank_name_inputs))).
Proof.
  assert (H1 : forallb is_js_whitespace [32%Z] = true) by reflexivity.
  assert (H2 : lookup_region (generate no_glyph_font blank_name_inputs) (lit "name")
               = buildText no_glyph_font [32%Z] (name_opts 3)) by reflexivity.
  split; [exact H1|]. split; [exact H2|].
  exact (proj1 (proj2 (blank_text_region_absent no_glyph_font [32%Z] (name_opts 3)
           (fun _ => None) jersey_regions (generate no_glyph_font blank_name_inputs)
           (lit "basketball-jersey") {| rid := lit "name" |} H1 H2))).
Defined.

Lemma js_substring_prefix (s : list Z) (k : nat) : js_substring s 0 k = firstn k s.
Proof.
  unfold js_substring. rewrite Nat.min_0_l, Nat.max_0_l, Nat.min_0_l, Nat.sub_0_r.
  simpl. destruct (Nat.le_ge_cases k (List.length s)) as [Hk|Hk].
  - now rewrite Nat.min_l by exact Hk.
  - rewrite Nat.min_r by exact Hk. rewrite firstn_all, firstn_all2 by exact Hk. reflexivity.
Qed.

Open Scope Z_scope.

Lemma upper_table_nonempty :
  forallb (fun e => match snd e with [] => false | _ => true end) upper_table = true.
Proof. vm_compute. reflexivity. Qed.

Lemma upper_table_no_surrogate :
  forallb (fun e => negb (is_high_surrogate (fst e))) upper_table = true.
Proof. vm_compute. reflexivity. Qed.

(** An astral code point is mapped to a list starting with a code point of
    the same 1024-block: its UTF-16 form keeps the high surrogate. *)
Lemma upper_table_astral :
  forallb (fun e => if 65536 <=? fst e
                    then match snd e with
                         | c :: _ => (65536 <=? c) && ((c - 65536) / 1024 =? (fst e - 65536) / 1024)
                         | [] => false
                         end
                    else true) upper_table = true.
Proof. vm_compute. reflexivity. Qed.

Lemma find_upper_table (cp : Z) (e : Z * list Z) :
  find (fun e => fst e =? cp) upper_table = Some e -> In e upper_table /\ fst e = cp.
Proof.
  intro H. destruct (find_some _ _ H) as [Hin Heq]. split; [exact Hin|]. now apply Z.eqb_eq.
Qed.

Lemma upper_units_nonempty (u : Z) : upper_units u <> [].
Proof.
  unfold upper_units, upper_code_point.
  destruct ((97 <=? u) && (u <=? 122)); [unfold utf16_encode; simpl; destruct (u - 32 <? 65536); discriminate|].
  destruct (find (fun e => fst e =? u) upper_table) as [[c v]|] eqn:E.
  - destruct (find_upper_table _ _ E) as [Hin _].
    pose proof (proj1 (forallb_forall _ _) upper_table_nonempty _ Hin) as Hv. simpl in Hv.
    destruct v as [|x v]; [discriminate|]. simpl. unfold utf16_encode.
    destruct (x <? 65536); discriminate.
  - simpl. unfold utf16_encode. destruct (u <? 65536); discriminate.
Qed.

Lemma upper_units_high_surrogate (h : Z) : is_high_surrogate h = true -> upper_units h = [h].
Proof.
  intro Hh. unfold is_high_surrogate in Hh. apply andb_prop in Hh as [H1 H2].
  apply Z.leb_le in H1. apply Z.leb_le in H2.
  unfold upper_units, upper_code_point.
  replace ((97 <=? h) && (h <=? 122)) with false
    by (symmetry; apply andb_false_iff; right; apply Z.leb_gt; lia).
  destruct (find (fun e => fst e =? h) upper_table) as [[c v]|] eqn:E.
  - exfalso. destruct (find_upper_table _ _ E) as [Hin Hc]. simpl in Hc. subst c.
    pose proof (proj1 (forallb_forall _ _) upper_table_no_surrogate _ Hin) as Hn.
    simpl in Hn. unfold is_high_surrogate in Hn.
    rewrite (proj2 (Z.leb_le _ _) H1), (proj2 (Z.leb_le _ _) H2) in Hn. discriminate.
  - simpl. unfold utf16_encode. rewrite (proj2 (Z.ltb_lt h 65536)) by lia. reflexivity.
Qed.

Lemma upper_units_pair (h l : Z) :
  is_high_surrogate h = true -> is_low_surrogate l = true ->
  exists t, upper_units ((h - 55296) * 1024 + (l - 56320) + 65536) = h :: t /\ t <> [].
Proof.
  unfold is_high_surrogate, is_low_surrogate. intros Hh Hl.
  apply andb_prop in Hh as [H1 H2]. apply andb_prop in Hl as [H3 H4].
  apply Z.leb_le in H1, H2, H3, H4.
  set (cp := (h - 55296) * 1024 + (l - 56320) + 65536).
  assert (Hblk : (cp - 65536) / 1024 = h - 55296).
  { unfold cp. replace ((h - 55296) * 1024 + (l - 56320) + 65536 - 65536)
      with ((h - 55296) * 1024 + (l - 56320)) by ring.
    rewrite Z.div_add_l by lia. rewrite Z.div_small by lia. ring. }
  unfold upper_units, upper_code_point.
  replace ((97 <=? cp) && (cp <=? 122)) with false
    by (symmetry; apply andb_false_iff; right; apply Z.leb_gt; unfold cp; lia).
  destruct (find (fun e => fst e =? cp) upper_table) as [[c v]|] eqn:E.
  - destruct (find_upper_table _ _ E) as [Hin Hc]. simpl in Hc. subst c.
    pose proof (proj1 (forallb_forall _ _) upper_table_astral _ Hin) as Ha. simpl in Ha.
    rewrite (proj2 (Z.leb_le 65536 cp)) in Ha by (unfold cp; lia).
    destruct v as [|c0 v]; [discriminate|].
    apply andb_prop in Ha as [Ha1 Ha2]. apply Z.leb_le in Ha1. apply Z.eqb_eq in Ha2.
    simpl. unfold utf16_encode. rewrite (proj2 (Z.ltb_ge c0 65536)) by lia.
    rewrite Ha2, Hblk. replace (55296 + (h - 55296)) with h by ring.
    eexists. split; [reflexivity|discriminate].
  - simpl. unfold utf16_encode. rewrite (proj2 (Z.ltb_ge cp 65536)) by (unfold cp; lia).
    rewrite Hblk. replace (55296 + (h - 55296)) with h by ring.
    eexists. split; [reflexivity|discriminate].
Qed.

Lemma toUpperCase_cons_pair (h l : Z) (rest : list Z) :
  is_high_surrogate h && is_low_surrogate l = true ->
  js_toUpperCase (h :: l :: rest) =
  upper_units ((h - 55296) * 1024 + (l - 56320) + 65536) ++ js_toUpperCase rest.
Proof. intro H. simpl. now rewrite H. Qed.

Lemma toUpperCase_cons_other (h : Z) (tl : list Z) :
  match tl with l :: _ => is_high_surrogate h && is_low_surrogate l | [] => false end = false ->
  js_toUpperCase (h :: tl) = upper_units h ++ js_toUpperCase tl.
Proof.
  intro H. destruct tl as [|l rest]; [simpl; now rewrite app_nil_r|].
  change (js_toUpperCase (h :: l :: rest))
    with (if is_high_surrogate h && is_low_surrogate l
          then upper_units ((h - 55296) * 1024 + (l - 56320) + 65536) ++ js_toUpperCase rest
          else upper_units h ++ js_toUpperCase (l :: rest)).
  now rewrite H.
Qed.

Lemma firstn_app_prefix (o X Y : list Z) (K k0 : nat) :
  (K - List.length o <= k0)%nat ->
  (forall j, (j <= k0)%nat -> firstn j X = firstn j Y) ->
  firstn K (o ++ X) = firstn K (o ++ Y).
Proof. intros HK H. rewrite !firstn_app. f_equal. apply H. exact HK. Qed.

Close Scope Z_scope.

(** Upper-casing never shortens a code point, and cutting a surrogate pair
    leaves its high surrogate, which maps to itself: the first [k] units of
    the result only depend on the first [k] units of the string. *)
Lemma toUpperCase_prefix (n : nat) : forall s, (List.length s <= n)%nat ->
  forall k, firstn k (js_toUpperCase s) = firstn k (js_toUpperCase (firstn k s)).
Proof.
  induction n as [|n IHn]; intros s Hs k.
  - destruct s; [now destruct k | simpl in Hs; lia].
  - destruct s as [|h tl]; [now destruct k|]. destruct k as [|k]; [reflexivity|].
    simpl in Hs.
    destruct (match tl with l :: _ => is_high_surrogate h && is_low_surrogate l | [] => false end)
      eqn:Hp.
    + destruct tl as [|l rest]; [discriminate|].
      pose proof Hp as Hp'. apply andb_prop in Hp' as [Hh Hl].
      rewrite (toUpperCase_cons_pair h l rest Hp).
      destruct (upper_units_pair h l Hh Hl) as [t [Ht Htn]]. rewrite Ht.
      destruct k as [|k].
      * change (firstn 1 (h :: l :: rest)) with [h].
        change (js_toUpperCase [h]) with (upper_units h).
        rewrite (upper_units_high_surrogate h Hh). reflexivity.
      * change (firstn (S (S k)) (h :: l :: rest)) with (h :: l :: firstn k rest).
        rewrite (toUpperCase_cons_pair h l (firstn k rest) Hp), Ht.
        apply firstn_app_prefix with (k0 := k).
        { destruct t as [|x t]; [contradiction|]. simpl. lia. }
        intros j Hj. simpl in Hs.
        rewrite (IHn rest ltac:(lia) j), (IHn (firstn k rest) ltac:(rewrite length_firstn; lia) j).
        rewrite firstn_firstn. now replace (Nat.min j k) with j by lia.
    + rewrite (toUpperCase_cons_other h tl Hp).
      change (firstn (S k) (h :: tl)) with (h :: firstn k tl).
      rewrite toUpperCase_cons_other
        by (destruct k, tl; simpl; [reflexivity | reflexivity | reflexivity | exact Hp]).
      apply firstn_app_prefix with (k0 := k).
      { pose proof (upper_units_nonempty h) as Hne.
        destruct (upper_units h); [contradiction|]. simpl. lia. }
      intros j Hj.
      rewrite (IHn tl ltac:(lia) j), (IHn (firstn k tl) ltac:(rewrite length_firstn; lia) j).
      rewrite firstn_firstn. now replace (Nat.min j k) with j by lia.
Qed.

(** C10: [generate] renders the number from the first two code units of
    [String(number)] and the name from the first fourteen code units of
    [String(playerName).toUpperCase()], which depend on the first fourteen
    code units of [String(playerName)] only; values of every kind are
    converted with [String()], none is rejected. *)
Theorem generate_text_truncation (fnt : font) (inp : inputs) :
  let number := with_default (in_number inp) (JStr (lit "23")) in
  let playerName := with_default (in_playerName inp) (JStr (lit "SMITH")) in
  let baseThickness := match in_baseThickness inp with Some t => t | None => 3 end in
  lookup_region (generate fnt inp) (lit "number")
    = buildText fnt (firstn 2 (js_String number)) (number_opts baseThickness) /\
  lookup_region (generate fnt inp) (lit "name")
    = buildText fnt (firstn 14 (js_toUpperCase (firstn 14 (js_String playerName))))
                (name_opts baseThickness).
Proof.
  intros number playerName baseThickness. split.
  - change (buildText fnt (js_substring (js_String number) 0 2) (number_opts baseThickness)
            = buildText fnt (firstn 2 (js_String number)) (number_opts baseThickness)).
    now rewrite js_substring_prefix.
  - change (buildText fnt (js_substring (js_toUpperCase (js_String playerName)) 0 14)
                      (name_opts baseThickness)
            = buildText fnt (firstn 14 (js_toUpperCase (firstn 14 (js_String playerName))))
                        (name_opts baseThickness)).
    rewrite js_substring_prefix.
    now rewrite (toUpperCase_prefix _ _ (le_n _)).
Qed.

(** Sample conversions: [String(1e21)], [String(0.1)], [String(-1.5e-7)],
    [String(123)], [String(NaN)], and the full Unicode upper-casing of
    ['Dončić'] and ['straße']. *)
Example js_String_samples :
  js_String (JNum (NFin false 476837158203125 21)) = lit "1e+21" /\
  js_String (JNum (NFin false 3602879701896397 (-55))) = lit "0.1" /\
  js_String (JNum (NFin true 2833419889721787 (-74))) = lit "-1.5e-7" /\
  js_String (JNum (NFin false 123 0)) = lit "123" /\
  js_String (JNum NNaN) = lit "NaN".
Proof. vm_compute. repeat split. Qed.

Example js_toUpperCase_samples :
  js_toUpperCase [68; 111; 110; 269; 105; 263]%Z = [68; 79; 78; 268; 73; 262]%Z /\
  js_toUpperCase (lit "stra" ++ [223]%Z ++ lit "e") = lit "STRASSE".
Proof. vm_compute. split; reflexivity. Qed.

Lemma or1_sqrt_pos (x : R) : 0 < or1 (sqrt x).
Proof.
  unfold or1; destruct (Req_EM_T (sqrt x) 0); [lra|].
  pose proof (sqrt_pos x); lra.
Qed.

(** Sign of the offset: when both edge normals point to negative x (resp.
    y), at least one strictly, a positive offset decreases x (resp. y). *)
Lemma shrink_vertex_moves_down_left (prev p next : point) (d : R) :
  0 < d ->
  snd p - snd prev <= 0 -> snd next - snd p <= 0 ->
  (snd p - snd prev < 0 \/ snd next - snd p < 0) ->
  - (fst p - fst prev) <= 0 -> - (fst next - fst p) <= 0 ->
  (- (fst p - fst prev) < 0 \/ - (fst next - fst p) < 0) ->
  fst (shrink_vertex prev p next d) < fst p /\ snd (shrink_vertex prev p next d) < snd p.
Proof.
  intros Hd Hx1 Hx2 Hx Hy1 Hy2 Hy. unfold shrink_vertex; simpl.
  set (x1 := snd p - snd prev) in *. set (y1 := - (fst p - fst prev)) in *.
  set (x2 := snd next - snd p) in *. set (y2 := - (fst next - fst p)) in *.
  pose proof (or1_sqrt_pos (x1 * x1 + y1 * y1)) as H1.
  pose proof (or1_sqrt_pos (x2 * x2 + y2 * y2)) as H2.
  set (L1 := or1 (sqrt (x1 * x1 + y1 * y1))) in *.
  set (L2 := or1 (sqrt (x2 * x2 + y2 * y2))) in *.
  set (bx := x1 / L1 + x2 / L2). set (bq := y1 / L1 + y2 / L2).
  pose proof (or1_sqrt_pos (bx * bx + bq * bq)) as Hb.
  set (lb := or1 (sqrt (bx * bx + bq * bq))) in *.
  assert (I1 : 0 < / L1) by (apply Rinv_0_lt_compat; exact H1).
  assert (I2 : 0 < / L2) by (apply Rinv_0_lt_compat; exact H2).
  assert (Ib : 0 < / lb) by (apply Rinv_0_lt_compat; exact Hb).
  assert (Hbx : bx < 0) by (unfold bx, Rdiv; destruct Hx; nra).
  assert (Hbq : bq < 0) by (unfold bq, Rdiv; destruct Hy; nra).
  assert (bx * / lb < 0) by nra. assert (bq * / lb < 0) by nra.
  unfold Rdiv. split; nra.
Qed.

(** Consequence of the counter-clockwise outline: the trim's "inner"
    polygon [shrinkPolygon silhouette 1.5] puts the bottom-left corner at
    negative coordinates, outside the silhouette. *)
Lemma jersey_trim_inner_corner_outside :
  let q := nth 0 (shrinkPolygon (jerseyPoints (lit "NBA Modern")) 1.5) (0, 0) in
  fst q < 0 /\ snd q < 0.
Proof.
  intro q. unfold q. rewrite nth_shrinkPolygon by (simpl; lia).
  simpl nth. unfold jerseyPoints, jersey_outline; simpl nth.
  apply shrink_vertex_moves_down_left; simpl; lra.
Qed.

(** ** Further facts about the pipeline *)

Lemma shrink_vertex_dir (prev p next : point) (d : R) :
  shrink_vertex prev p next d =
  (fst p + fst (shrink_dir (fst p - fst prev) (snd p - snd prev)
                           (fst next - fst p) (snd next - snd p)) * d,
   snd p + snd (shrink_dir (fst p - fst prev) (snd p - snd prev)
                           (fst next - fst p) (snd next - snd p)) * d).
Proof. reflexivity. Qed.

Lemma shrink_dir_unit_or_zero (e1x e1y e2x e2y : R) :
  let u := shrink_dir e1x e1y e2x e2y in
  fst u * fst u + snd u * snd u = 1 \/ u = (0, 0).
Proof.
  unfold shrink_dir; cbv zeta; simpl.
  set (bx := e1y / or1 (sqrt (e1y * e1y + - e1x * - e1x))
             + e2y / or1 (sqrt (e2y * e2y + - e2x * - e2x))).
  set (bq := - e1x / or1 (sqrt (e1y * e1y + - e1x * - e1x))
             + - e2x / or1 (sqrt (e2y * e2y + - e2x * - e2x))).
  destruct (Req_EM_T (bx * bx + bq * bq) 0) as [H0|H0].
  - right. assert (bx = 0) by nra. assert (bq = 0) by nra.
    rewrite H0, sqrt_0, or1_zero. f_equal; unfold Rdiv; nra.
  - left. assert (Hp : 0 < bx * bx + bq * bq) by nra.
    pose proof (sqrt_lt_R0 _ Hp) as Hs. pose proof (sqrt_sqrt _ (Rlt_le _ _ Hp)) as Hss.
    rewrite or1_pos_eq by lra.
    set (L := sqrt (bx * bx + bq * bq)) in *.
    transitivity ((bx * bx + bq * bq) / (L * L)); [field; lra|].
    rewrite Hss. field. lra.
Qed.

Lemma mapi_from_id {A} (f : nat -> A -> A) (l : list A) :
  (forall i x, f i x = x) -> forall k, mapi_from f k l = l.
Proof.
  intro Hf; induction l as [|x l IH]; intro k; simpl; [reflexivity|].
  now rewrite Hf, IH.
Qed.

Lemma length_mapi_from {A B} (f : nat -> A -> B) (l : list A) :
  forall k, List.length (mapi_from f k l) = List.length l.
Proof. induction l as [|x l IH]; intro k; simpl; [reflexivity|]. now rewrite IH. Qed.

Lemma length_shrinkPolygon (pts : polygon) (d : R) :
  List.length (shrinkPolygon pts d) = List.length pts.
Proof. apply length_mapi_from. Qed.

(** [shrinkPolygon] by a zero amount returns the polygon unchanged. *)
Theorem shrinkPolygon_zero_amount (pts : polygon) : shrinkPolygon pts 0 = pts.
Proof.
  unfold shrinkPolygon, mapi. apply mapi_from_id. intros i [x y].
  rewrite shrink_vertex_dir. simpl. f_equal; ring.
Qed.

(** Each vertex of [shrinkPolygon pts d] is either the original vertex or lies at distance exactly [|d|] from it. *)
Theorem shrinkPolygon_moves_by_amount (pts : polygon) (d : R) (i : nat) :
  (i < List.length pts)%nat ->
  let p := nth i pts (0, 0) in
  let q := nth i (shrinkPolygon pts d) (0, 0) in
  norm (psub q p) = Rabs d \/ q = p.
Proof.
  intros Hi p q. unfold q. rewrite nth_shrinkPolygon by exact Hi. fold p.
  rewrite shrink_vertex_dir.
  match goal with |- context [shrink_dir ?a ?b ?c ?e] =>
    destruct (shrink_dir_unit_or_zero a b c e) as [H|H];
    set (u := shrink_dir a b c e) in * end.
  - left. unfold norm, psub, dot; cbn [fst snd].
    rewrite <- sqrt_Rsqr_abs. apply sqrt_arg_eq. unfold Rsqr.
    transitivity (d * d * (fst u * fst u + snd u * snd u)); [ring|]. rewrite H; ring.
  - right. rewrite H; cbn [fst snd]. rewrite !Rmult_0_l, !Rplus_0_r.
    symmetry; apply surjective_pairing.
Qed.

Lemma shrink_vertex_translate (v prev p next : point) (d : R) :
  let tr := fun q : point => (fst q + fst v, snd q + snd v) in
  shrink_vertex (tr prev) (tr p) (tr next) d = tr (shrink_vertex prev p next d).
Proof.
  intro tr. unfold tr. rewrite !shrink_vertex_dir. simpl.
  replace (fst p + fst v - (fst prev + fst v)) with (fst p - fst prev) by ring.
  replace (snd p + snd v - (snd prev + snd v)) with (snd p - snd prev) by ring.
  replace (fst next + fst v - (fst p + fst v)) with (fst next - fst p) by ring.
  replace (snd next + snd v - (snd p + snd v)) with (snd next - snd p) by ring.
  f_equal; ring.
Qed.

(** [shrinkPolygon] commutes with translation of the polygon. *)
Theorem shrinkPolygon_translate (v : point) (pts : polygon) (d : R) :
  shrinkPolygon (translate_pts v pts) d = translate_pts v (shrinkPolygon pts d).
Proof.
  set (tr := fun q : point => (fst q + fst v, snd q + snd v)).
  assert (Hn : forall k l, (k < List.length l)%nat ->
             nth k (translate_pts v l) (0, 0) = tr (nth k l (0, 0))).
  { intros k l Hk. unfold translate_pts.
    rewrite (nth_indep _ _ (tr (0, 0))) by (rewrite length_map; exact Hk).
    apply (map_nth tr). }
  apply nth_ext with (d := (0, 0)) (d' := (0, 0)).
  - unfold translate_pts. now rewrite length_shrinkPolygon, !length_map, length_shrinkPolygon.
  - intros i Hi. rewrite length_shrinkPolygon in Hi.
    unfold translate_pts in Hi; rewrite length_map in Hi.
    change (lt i (@List.length point pts)) in Hi.
    assert (Hlen : List.length (translate_pts v pts) = List.length pts)
      by (unfold translate_pts; apply length_map).
    assert (Hnz : List.length pts <> 0%nat) by lia.
    rewrite (Hn i (shrinkPolygon pts d)) by (rewrite length_shrinkPolygon; exact Hi).
    rewrite nth_shrinkPolygon by (rewrite Hlen; exact Hi).
    rewrite nth_shrinkPolygon by exact Hi. rewrite Hlen.
    rewrite !Hn by first [exact Hi | apply Nat.mod_upper_bound; exact Hnz].
    apply shrink_vertex_translate.
Qed.

Lemma shrink_dir_rev (e1x e1y e2x e2y : R) :
  shrink_dir (- e2x) (- e2y) (- e1x) (- e1y) =
  (- fst (shrink_dir e1x e1y e2x e2y), - snd (shrink_dir e1x e1y e2x e2y)).
Proof.
  unfold shrink_dir; cbv zeta; cbn [fst snd].
  replace (- e2y * - e2y + - - e2x * - - e2x) with (e2y * e2y + - e2x * - e2x) by ring.
  replace (- e1y * - e1y + - - e1x * - - e1x) with (e1y * e1y + - e1x * - e1x) by ring.
  set (L1 := or1 (sqrt (e1y * e1y + - e1x * - e1x))).
  set (L2 := or1 (sqrt (e2y * e2y + - e2x * - e2x))).
  set (bx := e1y / L1 + e2y / L2). set (bq := - e1x / L1 + - e2x / L2).
  replace (- e2y / L2 + - e1y / L1) with (- bx) by (unfold bx, Rdiv; ring).
  replace (- - e2x / L2 + - - e1x / L1) with (- bq) by (unfold bq, Rdiv; ring).
  replace (- bx * - bx + - bq * - bq) with (bx * bx + bq * bq) by ring.
  f_equal; unfold Rdiv; ring.
Qed.

Lemma shrink_vertex_swap (prev p next : point) (d : R) :
  shrink_vertex next p prev d = shrink_vertex prev p next (- d).
Proof.
  rewrite !shrink_vertex_dir.
  replace (fst p - fst next) with (- (fst next - fst p)) by ring.
  replace (snd p - snd next) with (- (snd next - snd p)) by ring.
  replace (fst prev - fst p) with (- (fst p - fst prev)) by ring.
  replace (snd prev - snd p) with (- (snd p - snd prev)) by ring.
  rewrite shrink_dir_rev. cbn [fst snd]. f_equal; ring.
Qed.

Lemma rev_index_prev (n i : nat) :
  (i < n)%nat -> (n - S ((i + n - 1) mod n) = (n - S i + 1) mod n)%nat.
Proof.
  intro Hi. destruct i as [|i].
  - rewrite Nat.mod_small by lia. replace (n - 1 + 1)%nat with n by lia.
    rewrite Nat.Div0.mod_same. lia.
  - replace (S i + n - 1)%nat with (i + 1 * n)%nat by lia.
    rewrite Nat.Div0.mod_add, !Nat.mod_small by lia. lia.
Qed.

Lemma rev_index_next (n i : nat) :
  (i < n)%nat -> (n - S ((i + 1) mod n) = (n - S i + n - 1) mod n)%nat.
Proof.
  intro Hi. destruct (Nat.eq_dec (i + 1) n) as [E|E].
  - rewrite E, Nat.Div0.mod_same. replace (n - S i + n - 1)%nat with (n - 1)%nat by lia.
    rewrite Nat.mod_small by lia. lia.
  - rewrite Nat.mod_small by lia.
    replace (n - S i + n - 1)%nat with (n - S (S i) + 1 * n)%nat by lia.
    rewrite Nat.Div0.mod_add, Nat.mod_small by lia. lia.
Qed.

(** Shrinking the reversed polygon by [d] is the reverse of shrinking the original by [-d]: the offset direction follows the winding. *)
Theorem shrinkPolygon_rev (pts : polygon) (d : R) :
  shrinkPolygon (rev pts) d = rev (shrinkPolygon pts (- d)).
Proof.
  apply nth_ext with (d := (0, 0)) (d' := (0, 0)).
  - now rewrite length_shrinkPolygon, !length_rev, length_shrinkPolygon.
  - intros i Hi. rewrite length_shrinkPolygon, length_rev in Hi.
    change (lt i (@List.length point pts)) in Hi.
    assert (Hnz : List.length pts <> 0%nat) by lia.
    rewrite nth_shrinkPolygon by (rewrite length_rev; exact Hi).
    rewrite (rev_nth (shrinkPolygon pts (- d))) by (rewrite length_shrinkPolygon; exact Hi).
    rewrite length_rev, length_shrinkPolygon.
    rewrite nth_shrinkPolygon by lia.
    rewrite !rev_nth by first [exact Hi | apply Nat.mod_upper_bound; exact Hnz].
    rewrite rev_index_prev, rev_index_next by exact Hi.
    apply shrink_vertex_swap.
Qed.

Lemma jerseyPoints_outline (style : list Z) :
  exists sd aw ad cw cd,
    jerseyPoints style = jersey_outline sd aw ad cw cd /\
    14 <= sd <= 18 /\ 18 <= aw <= 22 /\ 24 <= ad <= 30 /\ 16 <= cw <= 20 /\ 10 <= cd <= 12.
Proof.
  unfold jerseyPoints. do 5 eexists. split; [reflexivity|].
  repeat split; repeat match goal with |- context [if ?b then _ else _] => destruct b end; lra.
Qed.

Ltac jersey_params style :=
  destruct (jerseyPoints_outline style)
    as (sd & aw & ad & cw & cd & -> & Hsd & Haw & Had & Hcw & Hcd);
  unfold jersey_outline.

(** Every jersey silhouette is symmetric about the vertical line [x = 50]: mirroring the outline gives the same vertices in reverse order. *)
Theorem jerseyPoints_mirror_symmetric (style : list Z) :
  map mirror_x (jerseyPoints style) =
  rev (skipn 2 (jerseyPoints style) ++ firstn 2 (jerseyPoints style)).
Proof.
  jersey_params style. simpl. unfold mirror_x; simpl.
  split_points; lra.
Qed.

(** Every jersey silhouette has 13 vertices, all within [0,100] x [0,120]. *)
Theorem jerseyPoints_in_bounds (style : list Z) :
  List.length (jerseyPoints style) = 13%nat /\
  Forall (fun p => 0 <= fst p <= 100 /\ 0 <= snd p <= 120) (jerseyPoints style).
Proof.
  jersey_params style. split; [reflexivity|].
  repeat apply Forall_cons; try apply Forall_nil; simpl; lra.
Qed.

(** No edge of a jersey silhouette (closing edge included) has equal endpoints. *)
Theorem jerseyPoints_no_zero_length_edge (style : list Z) :
  Forall (fun e => fst e <> snd e)
         (combine (jerseyPoints style)
                  (skipn 1 (jerseyPoints style) ++ firstn 1 (jerseyPoints style))).
Proof.
  jersey_params style. simpl.
  repeat apply Forall_cons; try apply Forall_nil; simpl; intro H; injection H; lra.
Qed.

Lemma shrink_vertex_spike (prev p next : point) (t d : R) :
  0 < t -> prev <> p ->
  fst next - fst p = t * (fst prev - fst p) -> snd next - snd p = t * (snd prev - snd p) ->
  shrink_vertex prev p next d = p.
Proof.
  intros Ht Hne Hx Hy. rewrite shrink_vertex_dir. unfold shrink_dir; cbv zeta; cbn [fst snd].
  rewrite Hx, Hy.
  set (wx := fst prev - fst p). set (wy := snd prev - snd p).
  replace (fst p - fst prev) with (- wx) by (unfold wx; ring).
  replace (snd p - snd prev) with (- wy) by (unfold wy; ring).
  assert (Hw : 0 < wx * wx + wy * wy).
  { destruct prev as [a b], p as [c e]; unfold wx, wy; simpl.
    destruct (Req_EM_T a c) as [->|H1]; destruct (Req_EM_T b e) as [->|H2].
    - contradiction. - assert (0 < (b - e) * (b - e)) by (apply Rsqr_pos_lt; lra). nra.
    - assert (0 < (a - c) * (a - c)) by (apply Rsqr_pos_lt; lra). nra.
    - assert (0 < (a - c) * (a - c)) by (apply Rsqr_pos_lt; lra). nra. }
  replace (- wy * - wy + - - wx * - - wx) with (wx * wx + wy * wy) by ring.
  replace (t * wy * (t * wy) + - (t * wx) * - (t * wx)) with ((t * t) * (wx * wx + wy * wy))
    by ring.
  rewrite sqrt_mult_alt by nra. rewrite sqrt_square by lra.
  set (L := sqrt (wx * wx + wy * wy)).
  assert (HL : 0 < L) by (apply sqrt_lt_R0; exact Hw).
  rewrite !or1_pos_eq by nra.
  replace (- wy / L + t * wy / (t * L)) with 0 by (field; lra).
  replace (- - wx / L + - (t * wx) / (t * L)) with 0 by (field; lra).
  replace (0 * 0 + 0 * 0) with 0 by ring. rewrite sqrt_0, or1_zero.
  destruct p; cbn [fst snd]; f_equal; field.
Qed.

(** The armhole tips (vertices 4 and 10) of a jersey silhouette are fixed by [shrinkPolygon], whatever the amount: the trim's inner outline touches the outer one there. *)
Theorem jersey_trim_armhole_tips_fixed (style : list Z) (d : R) :
  nth 4 (shrinkPolygon (jerseyPoints style) d) (0, 0) = nth 4 (jerseyPoints style) (0, 0) /\
  nth 10 (shrinkPolygon (jerseyPoints style) d) (0, 0) = nth 10 (jerseyPoints style) (0, 0).
Proof.
  jersey_params style. split.
  - rewrite nth_shrinkPolygon by (simpl; lia). simpl nth.
    apply (shrink_vertex_spike _ _ _ (ad / (ad - sd))); simpl;
      [apply Rdiv_lt_0_compat; lra | intro H; injection H; lra | ring | field; lra].
  - rewrite nth_shrinkPolygon by (simpl; lia). simpl nth.
    apply (shrink_vertex_spike _ _ _ ((ad - sd) / ad)); simpl;
      [apply Rdiv_lt_0_compat; lra | intro H; injection H; lra | ring | field; lra].
Qed.

(** The silhouette's doubled signed area is [2 (100 (120 - sd) + (100 - 2 aw) sd - cw cd)]; it does not depend on the armhole depth. *)
Theorem jerseyPoints_area (style : list Z) :
  exists sd aw ad cw cd,
    jerseyPoints style = jersey_outline sd aw ad cw cd /\
    area2 (jerseyPoints style) = 2 * (100 * (120 - sd) + (100 - 2 * aw) * sd - cw * cd) /\
    (forall ad', area2 (jersey_outline sd aw ad' cw cd) = area2 (jerseyPoints style)).
Proof.
  destruct (jerseyPoints_outline style) as (sd & aw & ad & cw & cd & E & _).
  exists sd, aw, ad, cw, cd. rewrite E. split; [reflexivity|].
  split; [|intro ad']; unfold area2, jersey_outline; simpl; field.
Qed.

(** paths *)

Lemma last_sampleCubic (x0 y0 x1 y1 x2 y2 x3 y3 : R) (steps : nat) (q : point) :
  (0 < steps)%nat -> last (sampleCubic x0 y0 x1 y1 x2 y2 x3 y3 steps) q = (x3, y3).
Proof.
  intro Hs. destruct steps as [|k]; [lia|]. unfold sampleCubic.
  rewrite seq_S, map_app. cbn [map]. rewrite last_last. replace (1 + k)%nat with (S k) by lia.
  assert (HS : INR (S k) <> 0) by (apply not_0_INR; lia).
  replace (INR (S k) / INR (S k)) with 1 by (field; exact HS).
  f_equal; ring.
Qed.

Lemma last_sampleQuadratic (x0 y0 x1 y1 x2 y2 : R) (steps : nat) (q : point) :
  (0 < steps)%nat -> last (sampleQuadratic x0 y0 x1 y1 x2 y2 steps) q = (x2, y2).
Proof.
  intro Hs. destruct steps as [|k]; [lia|]. unfold sampleQuadratic.
  rewrite seq_S, map_app. cbn [map]. rewrite last_last. replace (1 + k)%nat with (S k) by lia.
  assert (HS : INR (S k) <> 0) by (apply not_0_INR; lia).
  replace (INR (S k) / INR (S k)) with 1 by (field; exact HS).
  f_equal; ring.
Qed.

Lemma last_app_cons {A} (l m : list A) (a d : A) :
  last (l ++ a :: m) d = last (a :: m) d.
Proof.
  induction l as [|x l IH]; [reflexivity|].
  simpl. rewrite IH. destruct l; reflexivity.
Qed.

Lemma last_app_nonnil {A} (l m : list A) (d : A) :
  m <> [] -> last (l ++ m) d = last m d.
Proof. destruct m as [|a m]; [contradiction|]. intros _. apply last_app_cons. Qed.

Lemma path_step_pen (st : path_state) (c : cmd) : pen_on_buffer (path_step st c).
Proof.
  unfold pen_on_buffer. destruct c; simpl.
  - right; reflexivity.
  - right; apply last_last.
  - right. rewrite last_app_nonnil by (unfold sampleCubic; simpl; discriminate).
    apply last_sampleCubic; unfold BEZIER_STEPS; lia.
  - right. rewrite last_app_nonnil by (unfold sampleQuadratic; simpl; discriminate).
    apply last_sampleQuadratic; unfold BEZIER_STEPS; lia.
  - left; reflexivity.
Qed.

(** While [pathToContours] folds over a path, the pen position is the last point of the current contour whenever that contour is not empty. *)
Theorem pathToContours_pen_tracks_buffer (commands : list cmd) :
  pen_on_buffer (fold_left path_step commands
                   {| ps_contours := []; ps_current := []; ps_cx := 0; ps_cy := 0 |}).
Proof.
  destruct commands as [|c cs] using rev_ind.
  - left; reflexivity.
  - rewrite fold_left_app. apply path_step_pen.
Qed.

Lemma flush_prepend (cs c : list (list point)) (cur : list point) :
  flush (cs ++ c) cur = cs ++ flush c cur.
Proof. unfold flush. destruct (2 <? List.length cur)%nat; [symmetry; apply app_assoc | reflexivity]. Qed.

Lemma path_step_prepend (cs : list (list point)) (st : path_state) (c : cmd) :
  path_step (prepend_contours cs st) c = prepend_contours cs (path_step st c).
Proof. destruct c; unfold prepend_contours; simpl; try rewrite flush_prepend; reflexivity. Qed.

Lemma fold_path_step_prepend (cs : list (list point)) (commands : list cmd) :
  forall st, fold_left path_step commands (prepend_contours cs st) =
             prepend_contours cs (fold_left path_step commands st).
Proof.
  induction commands as [|c commands IH]; intro st; simpl; [reflexivity|].
  rewrite path_step_prepend. apply IH.
Qed.

(** A path that closes a contour and then moves to a new point converts as its two parts converted separately. *)
Theorem pathToContours_split (p1 p2 : list cmd) (x y scale : R) :
  pathToContours (p1 ++ CmdZ :: CmdM x y :: p2) scale =
  pathToContours p1 scale ++ pathToContours (CmdM x y :: p2) scale.
Proof.
  unfold pathToContours. rewrite fold_left_app. cbn [fold_left].
  set (st1 := fold_left path_step p1
                {| ps_contours := []; ps_current := []; ps_cx := 0; ps_cy := 0 |}).
  set (init := {| ps_contours := []; ps_current := []; ps_cx := 0; ps_cy := 0 |}).
  assert (E : path_step (path_step st1 CmdZ) (CmdM x y) =
              prepend_contours (flush (ps_contours st1) (ps_current st1))
                               (path_step init (CmdM x y))).
  { unfold prepend_contours; simpl. rewrite app_nil_r. reflexivity. }
  rewrite E, fold_path_step_prepend. unfold prepend_contours; simpl.
  apply flush_prepend.
Qed.

Lemma pathToContours_long (commands : list cmd) (scale : R) :
  Forall (fun c => (3 <= List.length c)%nat) (pathToContours commands scale).
Proof.
  unfold pathToContours.
  assert (Hinv : forall cs st,
            Forall (fun c => (3 <= List.length c)%nat) (ps_contours st) ->
            Forall (fun c => (3 <= List.length c)%nat) (ps_contours (fold_left path_step cs st))).
  { induction cs as [|c cs IH]; intros st Hst; simpl; [exact Hst|].
    apply IH. destruct c; simpl; try exact Hst; apply flush_keeps_long; auto. }
  apply flush_keeps_long; [apply Hinv; constructor | auto].
Qed.

Lemma filter_all {A} (f : A -> bool) (l : list A) :
  Forall (fun x => f x = true) l -> filter f l = l.
Proof.
  induction 1 as [|x l Hx _ IH]; simpl; [reflexivity|]. now rewrite Hx, IH.
Qed.

(** The glyph loop of [buildText] keeps every contour of every glyph, in order. *)
Theorem glyph_loop_keeps_every_contour (f : font) (size scale : R) (gs : list (Glyph f)) :
  forall cursorX ps,
    map fst (snd (glyph_loop f size scale gs cursorX ps)) =
    map fst ps ++ flat_map (fun g => map G2Polygon (pathToContours (getPath f g size) scale)) gs.
Proof.
  induction gs as [|g gs IH]; intros cursorX ps; simpl.
  - now rewrite app_nil_r.
  - rewrite IH, map_app, map_map, <- app_assoc. simpl.
    rewrite filter_all.
    + reflexivity.
    + eapply Forall_impl; [|apply pathToContours_long]. intros c Hc. change ((3 <=? List.length c)%nat = true). apply Nat.leb_le; exact Hc.
Qed.

Lemma glyph_loop_cons (f : font) (size scale : R) (g : Glyph f) (rest : list (Glyph f))
    (cursorX : R) (ps : list (geom2 * R)) :
  exists ps', glyph_loop f size scale (g :: rest) cursorX ps =
              glyph_loop f size scale rest
                (cursorX + advance f g size * scale
                 + match rest with g' :: _ => getKerningValue f g g' * scale | [] => 0 end) ps'.
Proof. eexists. simpl. destruct rest; [rewrite Rplus_0_r|]; reflexivity. Qed.

(** The cursor after the glyph loop has advanced by the text width: the sum of the advances plus the sum of the kerning values, scaled. *)
Theorem glyph_loop_width (f : font) (size scale : R) (gs : list (Glyph f)) :
  forall cursorX ps,
    fst (glyph_loop f size scale gs cursorX ps) = cursorX + text_advance f size scale gs.
Proof.
  induction gs as [|g gs IH]; intros cursorX ps.
  - unfold text_advance; simpl; ring.
  - destruct (glyph_loop_cons f size scale g gs cursorX ps) as [ps' ->].
    rewrite IH. unfold text_advance.
    destruct gs as [|g' gs]; simpl; ring.
Qed.

Lemma flat_map_all_nil {A B} (f : A -> list B) (l : list A) :
  (forall x, In x l -> f x = []) -> flat_map f l = [].
Proof.
  induction l as [|x l IH]; intro H; simpl; [reflexivity|].
  rewrite H by (left; reflexivity). apply IH. intros y Hy; apply H; right; exact Hy.
Qed.

(** [buildText] returns no geometry when no glyph of the text yields a contour. *)
Theorem buildText_blank_glyphs (f : font) (text : list Z) (o : text_opts) :
  (forall g, In g (stringToGlyphs f text) ->
             pathToContours (getPath f g (o_size o)) (o_size o / unitsPerEm f) = []) ->
  buildText f text o = None.
Proof.
  intro Hg. unfold buildText.
  destruct (is_empty_str text || is_empty_str (js_trim text)); [reflexivity|].
  pose proof (glyph_loop_keeps_every_contour f (o_size o) (o_size o / unitsPerEm f)
                (stringToGlyphs f text) 0 []) as H.
  destruct (glyph_loop f (o_size o) (o_size o / unitsPerEm f) (stringToGlyphs f text) 0 [])
    as [cx polys].
  simpl in H. replace polys with (@nil (geom2 * R)); [reflexivity|].
  symmetry. apply map_eq_nil with (f := fst). rewrite H.
  apply flat_map_all_nil. intros g Hin. now rewrite Hg.
Qed.

Lemma generate_lookups (fnt : font) (inp : inputs) :
  let bt := match in_baseThickness inp with Some t => t | None => 3 end in
  let style := match in_jerseyStyle inp with Some s => s | None => lit "NBA Modern" end in
  lookup_region (generate fnt inp) (lit "body") = Some (buildBody (jerseyPoints style) bt) /\
  lookup_region (generate fnt inp) (lit "number") =
    buildText fnt (js_substring (js_String (with_default (in_number inp) (JStr (lit "23")))) 0 2)
              (number_opts bt) /\
  lookup_region (generate fnt inp) (lit "name") =
    buildText fnt (js_substring (js_toUpperCase
                     (js_String (with_default (in_playerName inp) (JStr (lit "SMITH"))))) 0 14)
              (name_opts bt) /\
  lookup_region (generate fnt inp) (lit "trim") =
    (if js_truthy (with_default (in_showTrim inp) (JBool true))
     then Some (buildTrim (jerseyPoints style) bt 1.5 2) else None).
Proof. intros bt style. repeat split; reflexivity. Qed.

(** A [null] player name is rendered as the text NULL. *)
Theorem generate_null_name (fnt : font) (inp : inputs) :
  in_playerName inp = Some JNull ->
  lookup_region (generate fnt inp) (lit "name") =
  buildText fnt (lit "NULL") (name_opts (match in_baseThickness inp with Some t => t | None => 3 end)).
Proof.
  intro H. destruct (generate_lookups fnt inp) as (_ & _ & Hm & _). rewrite Hm, H. reflexivity.
Qed.

Lemma exportAllSTL_cons (design_id : list Z) (r : color_region) (rs : list color_region)
    (rm : region_map) :
  exportAllSTL design_id (r :: rs) rm =
  match lookup_region rm (rid r) with
  | Some _ => [export_filename design_id (rid r)]
  | None => []
  end ++ exportAllSTL design_id rs rm.
Proof. unfold exportAllSTL; simpl. destruct (lookup_region rm (rid r)); reflexivity. Qed.

Lemma loadGeometries_cons (tess : geom3 -> option (list face)) (r : color_region)
    (rs : list color_region) (rm : region_map) :
  loadGeometries tess (r :: rs) rm =
  match lookup_region rm (rid r) with
  | Some g => [(rid r, jscadToThree_positions (tess g))]
  | None => []
  end ++ loadGeometries tess rs rm.
Proof. reflexivity. Qed.

(** The files [exportAllSTL] downloads correspond one to one, in order, to the meshes [loadGeometries] adds to the scene. *)
Theorem exportAllSTL_matches_loaded (tess : geom3 -> option (list face)) (design_id : list Z)
    (regions : list color_region) (rm : region_map) :
  exportAllSTL design_id regions rm =
  map (fun e => export_filename design_id (fst e)) (loadGeometries tess regions rm).
Proof.
  induction regions as [|r rs IH]; [reflexivity|].
  rewrite exportAllSTL_cons, loadGeometries_cons, map_app, IH.
  destruct (lookup_region rm (rid r)); reflexivity.
Qed.

Lemma in_exportAllSTL (design_id : list Z) (regions : list color_region) (rm : region_map) x :
  In x (exportAllSTL design_id regions rm) ->
  exists r, In r regions /\ x = export_filename design_id (rid r).
Proof.
  induction regions as [|r rs IH]; [simpl; tauto|].
  rewrite exportAllSTL_cons, in_app_iff. intros [H|H].
  - destruct (lookup_region rm (rid r)); simpl in H; [|contradiction].
    destruct H as [<-|[]]. exists r; split; [left|]; reflexivity.
  - destruct (IH H) as (r' & Hin & ->). exists r'; split; [right; exact Hin | reflexivity].
Qed.

(** With distinct region ids, [exportAllSTL] downloads files with distinct names. *)
Theorem exportAllSTL_distinct (design_id : list Z) (regions : list color_region)
    (rm : region_map) :
  NoDup (map rid regions) -> NoDup (exportAllSTL design_id regions rm).
Proof.
  induction regions as [|r rs IH]; intro Hnd; [constructor|].
  inversion Hnd as [|x l Hnotin Hnd']; subst.
  rewrite exportAllSTL_cons.
  destruct (lookup_region rm (rid r)); simpl; [|exact (IH Hnd')].
  constructor; [|exact (IH Hnd')].
  intro Hin. destruct (in_exportAllSTL _ _ _ _ Hin) as (r' & Hr' & Heq).
  apply export_filename_inj in Heq. apply Hnotin. rewrite Heq. now apply in_map.
Qed.

Lemma jscad_geom_ind' (P : jscad_geom -> Prop) :
  (forall ps, P (JGeom3 ps)) -> (forall gs, Forall P gs -> P (JArray gs)) -> forall g, P g.
Proof.
  intros H1 H2.
  refine (fix IH (g : jscad_geom) : P g :=
            match g with
            | JGeom3 ps => H1 ps
            | JArray gs =>
                H2 gs ((fix F (l : list jscad_geom) : Forall P l :=
                          match l with
                          | [] => Forall_nil P
                          | g' :: l' => Forall_cons g' (IH g') (F l')
                          end) gs)
            end).
Qed.

Lemma pushVertex_length (v : vertex) : List.length (pushVertex v) = 3%nat.
Proof. destruct v; reflexivity. Qed.

Lemma fan_loop_length3 (verts : list vertex) (fuel : nat) :
  forall i, exists k, List.length (fan_loop verts i fuel) = (3 * k)%nat.
Proof.
  induction fuel as [|fuel IH]; intro i; simpl; [exists 0%nat; reflexivity|].
  destruct (i <? List.length verts - 1)%nat; [|exists 0%nat; reflexivity].
  destruct (IH (S i)) as [k Hk]. exists (3 + k)%nat.
  rewrite !length_app, !pushVertex_length, Hk. lia.
Qed.

Lemma positions_length3 (polygons : option (list face)) :
  exists k, List.length (jscadToThree_positions polygons) = (3 * k)%nat.
Proof.
  unfold jscadToThree_positions. generalize (match polygons with Some l => l | None => [] end).
  induction l as [|f l [k Hk]]; simpl; [exists 0%nat; reflexivity|].
  rewrite length_app, Hk.
  assert (Hf : exists j, List.length (face_positions f) = (3 * j)%nat).
  { unfold face_positions. destruct f as [verts|]; [|exists 0%nat; reflexivity].
    destruct (List.length verts <? 3)%nat; [exists 0%nat; reflexivity|].
    apply fan_loop_length3. }
  destruct Hf as [j Hj]. exists (j + k)%nat. rewrite Hj. lia.
Qed.

Lemma jscadToThreeGeometry_array_cons (g : jscad_geom) (gs : list jscad_geom) :
  jscadToThreeGeometry (JArray (g :: gs)) =
  copy_xyz (jscadToThreeGeometry g) ++ jscadToThreeGeometry (JArray gs).
Proof. reflexivity. Qed.

Lemma flat_map_map_S {B} (f : nat -> list B) (l : list nat) :
  flat_map f (map S l) = flat_map (fun i => f (S i)) l.
Proof. induction l as [|x l IH]; simpl; [reflexivity|]. now rewrite IH. Qed.

Lemma div3_mul (k : nat) : ((3 * k) / 3)%nat = k.
Proof. rewrite Nat.mul_comm. apply Nat.div_mul. lia. Qed.

Lemma copy_xyz_id (k : nat) : forall l, List.length l = (3 * k)%nat -> copy_xyz l = l.
Proof.
  induction k as [|k IH]; intros l Hl.
  - destruct l; [reflexivity|simpl in Hl; lia].
  - destruct l as [|a [|b [|c rest]]]; simpl in Hl; try lia.
    assert (Hr : List.length rest = (3 * k)%nat) by lia.
    unfold copy_xyz.
    replace (List.length (a :: b :: c :: rest) / 3)%nat with (S k)
      by (cbn [List.length]; rewrite Hr; replace (S (S (S (3 * k)))) with (3 * S k)%nat by lia;
          symmetry; apply div3_mul).
    simpl seq. change (0%nat :: seq 1 k) with ([0%nat] ++ seq 1 k).
    rewrite flat_map_app, <- seq_shift, flat_map_map_S. simpl flat_map at 1.
    transitivity ([a; b; c] ++ copy_xyz rest); [|rewrite (IH rest Hr); reflexivity].
    f_equal. unfold copy_xyz.
    replace (List.length rest / 3)%nat with k by (rewrite Hr; symmetry; apply div3_mul). apply flat_map_ext. intro i.
    replace (3 * S i)%nat with (S (S (S (3 * i)))) by lia.
    replace (S (S (S (3 * i))) + 1)%nat with (S (S (S (3 * i + 1)))) by lia.
    replace (S (S (S (3 * i))) + 2)%nat with (S (S (S (3 * i + 2)))) by lia.
    reflexivity.
Qed.

Lemma jscadToThreeGeometry_length3 (g : jscad_geom) :
  exists k, List.length (jscadToThreeGeometry g) = (3 * k)%nat.
Proof.
  induction g as [ps|gs Hgs] using jscad_geom_ind'; [apply positions_length3|].
  induction Hgs as [|g gs [k Hk] _ [j Hj]]; [exists 0%nat; reflexivity|].
  rewrite jscadToThreeGeometry_array_cons, length_app, (copy_xyz_id k _ Hk), Hk, Hj.
  exists (k + j)%nat. lia.
Qed.

(** [jscadToThreeGeometry] on an array of geometries concatenates the position arrays of its elements. *)
Theorem jscadToThreeGeometry_array_merge (gs : list jscad_geom) :
  jscadToThreeGeometry (JArray gs) = flat_map jscadToThreeGeometry gs.
Proof.
  induction gs as [|g gs IH]; [reflexivity|].
  rewrite jscadToThreeGeometry_array_cons, IH.
  destruct (jscadToThreeGeometry_length3 g) as [k Hk]. now rewrite (copy_xyz_id k _ Hk).
Qed.

Open Scope Z_scope.

Lemma js_str_eqb_true (a b : list Z) : js_str_eqb a b = true <-> a = b.
Proof. unfold js_str_eqb. destruct (list_eq_dec Z.eq_dec a b); split; congruence. Qed.

Lemma filter_filter_and {A} (f g : A -> bool) (l : list A) :
  filter f (filter g l) = filter (fun x => g x && f x) l.
Proof.
  induction l as [|x l IH]; simpl; [reflexivity|].
  destruct (g x); simpl; [destruct (f x); simpl; now rewrite IH | exact IH].
Qed.

Lemma fold_obj_delete (keys : list (list Z)) : forall m : color_map,
  fold_left obj_delete keys m =
  filter (fun kv => negb (existsb (js_str_eqb (fst kv)) keys)) m.
Proof.
  induction keys as [|k keys IH]; intro m; simpl.
  - induction m as [|kv m IHm]; simpl; [reflexivity|]. f_equal; exact IHm.
  - rewrite IH. unfold obj_delete. rewrite filter_filter_and.
    apply filter_ext. intro kv. simpl. destruct (js_str_eqb (fst kv) k); reflexivity.
Qed.

Lemma filter_none {A} (f : A -> bool) (l : list A) :
  (forall x, In x l -> f x = false) -> filter f l = [].
Proof.
  induction l as [|x l IH]; intro H; simpl; [reflexivity|].
  rewrite (H x (or_introl eq_refl)). apply IH. intros y Hy. apply H. now right.
Qed.

Lemma clear_all_keys (colors : color_map) :
  fold_left obj_delete (map fst colors) colors = [].
Proof.
  rewrite fold_obj_delete. apply filter_none. intros kv Hkv.
  apply negb_false_iff, existsb_exists. exists (fst kv). split.
  - now apply in_map.
  - now apply js_str_eqb_true.
Qed.

Lemma type_is_two (t : option (list Z)) (a b : string) :
  type_is t a = true -> type_is t b = true -> lit a = lit b.
Proof.
  destruct t as [t|]; simpl; [|discriminate].
  rewrite !js_str_eqb_true. congruence.
Qed.

(** The children [buildForm] leaves in an input's group: only the checkbox wrapper for a checkbox; otherwise one label, then the control, then the value display for a range; then the hint when it is not empty. *)
Theorem form_group_layout (inp : form_input) :
  form_group_children inp =
  (if type_is (fi_type inp) "checkbox" then [NCheckWrap]
   else NLabel :: NControl ::
        (if type_is (fi_type inp) "range" then [NValueDisplay] else [])) ++
  match fi_hint inp with Some (_ :: _) => [NHint] | _ => [] end.
Proof.
  unfold form_group_children.
  destruct (type_is (fi_type inp) "checkbox") eqn:Hc,
           (type_is (fi_type inp) "select") eqn:Hs,
           (type_is (fi_type inp) "range") eqn:Hr;
    try (exfalso; first [ pose proof (type_is_two _ _ _ Hc Hs)
                        | pose proof (type_is_two _ _ _ Hc Hr)
                        | pose proof (type_is_two _ _ _ Hs Hr) ]; discriminate);
    destruct (fi_hint inp) as [[|]|]; reflexivity.
Qed.

Close Scope Z_scope.

Open Scope Z_scope.

Lemma js_str_eqb_sym (a b : list Z) : js_str_eqb a b = js_str_eqb b a.
Proof.
  unfold js_str_eqb.
  destruct (list_eq_dec Z.eq_dec a b), (list_eq_dec Z.eq_dec b a); congruence.
Qed.

Lemma obj_get_cons (k' v' : list Z) (m : color_map) (k : list Z) :
  obj_get ((k', v') :: m) k = if js_str_eqb k' k then Some v' else obj_get m k.
Proof. unfold obj_get. simpl. now destruct (js_str_eqb k' k). Qed.

(** After [setColor], reading the set region gives the new color and every other region keeps its color. *)
Theorem setColor_then_get (colors : color_map) (regionId hex k : list Z) :
  obj_get (setColor colors regionId hex) k =
  if js_str_eqb k regionId then Some hex else obj_get colors k.
Proof.
  unfold setColor.
  induction colors as [|[k' v'] m IH].
  - simpl. rewrite obj_get_cons, js_str_eqb_sym. reflexivity.
  - cbn [obj_set]. destruct (js_str_eqb k' regionId) eqn:E1.
    + rewrite !obj_get_cons. apply js_str_eqb_true in E1. subst k'.
      rewrite js_str_eqb_sym. now destruct (js_str_eqb k regionId).
    + rewrite !obj_get_cons, IH.
      destruct (js_str_eqb k' k) eqn:E2, (js_str_eqb k regionId) eqn:E3; try reflexivity.
      apply js_str_eqb_true in E2, E3. subst. now rewrite (proj2 (js_str_eqb_true _ _) eq_refl) in E1.
Qed.

Lemma obj_get_obj_set (m : color_map) (id v k : list Z) :
  obj_get (obj_set m id v) k = if js_str_eqb k id then Some v else obj_get m k.
Proof.
  induction m as [|[k' v'] m IH].
  - simpl. rewrite obj_get_cons, js_str_eqb_sym. reflexivity.
  - cbn [obj_set]. destruct (js_str_eqb k' id) eqn:E1.
    + rewrite !obj_get_cons. apply js_str_eqb_true in E1. subst k'.
      rewrite js_str_eqb_sym. now destruct (js_str_eqb k id).
    + rewrite !obj_get_cons, IH.
      destruct (js_str_eqb k' k) eqn:E2, (js_str_eqb k id) eqn:E3; try reflexivity.
      apply js_str_eqb_true in E2, E3. subst. now rewrite (proj2 (js_str_eqb_true _ _) eq_refl) in E1.
Qed.

Lemma find_app {A : Type} (f : A -> bool) (l1 l2 : list A) :
  find f (l1 ++ l2) = match find f l1 with Some x => Some x | None => find f l2 end.
Proof.
  induction l1 as [|x l1 IH]; simpl; [reflexivity|].
  destruct (f x); [reflexivity | exact IH].
Qed.

Lemma fold_regions_get (k : list Z) (rs : list color_cfg) : forall m,
  obj_get (fold_left (fun m r => obj_set m (cc_id r) (or_grey (cc_default r))) rs m) k =
  match find (fun r => js_str_eqb (cc_id r) k) (rev rs) with
  | Some r => Some (or_grey (cc_default r))
  | None => obj_get m k
  end.
Proof.
  induction rs as [|r rs IH]; intro m; simpl; [reflexivity|].
  rewrite IH, find_app. destruct (find (fun r => js_str_eqb (cc_id r) k) (rev rs)); [reflexivity|].
  simpl. rewrite obj_get_obj_set, js_str_eqb_sym. now destruct (js_str_eqb (cc_id r) k).
Qed.

(** After [buildColorPanel], a key has a color exactly when some region has
    that id, and the color is the [default] (or ['#888888']) of the last
    such region; every previous color is gone, and without color regions no
    key has a color. *)
Theorem buildColorPanel_lookup (colors : color_map) (regions : option (list color_cfg))
  (k : list Z) :
  obj_get (buildColorPanel colors regions) k =
  match regions with
  | None => None
  | Some rs =>
      match find (fun r => js_str_eqb (cc_id r) k) (rev rs) with
      | Some r => Some (or_grey (cc_default r))
      | None => None
      end
  end.
Proof.
  unfold buildColorPanel. rewrite clear_all_keys.
  destruct regions as [[|r rs]|]; [reflexivity| |reflexivity].
  rewrite fold_regions_get. reflexivity.
Qed.

Close Scope Z_scope.

Lemma shrinkPolygon_moves_by_amount_witness :
  lt 0 (List.length ([(0, 0); (1, 0); (1, 1)] : polygon)) /\
  (let p := nth 0 ([(0, 0); (1, 0); (1, 1)] : polygon) (0, 0) in
   let q := nth 0 (shrinkPolygon [(0, 0); (1, 0); (1, 1)] 1) (0, 0) in
   norm (psub q p) = Rabs 1 \/ q = p).
Proof.
  split; [simpl; lia|]. apply (shrinkPolygon_moves_by_amount _ 1 0). simpl; lia.
Defined.

Lemma buildText_blank_glyphs_witness :
  let f := {| Glyph := unit; unitsPerEm := 1000;
              stringToGlyphs := fun s => map (fun _ => tt) s;
              getPath := fun _ _ => [CmdM 0 0; CmdL 1 1];
              advanceWidth := fun _ => None; getKerningValue := fun _ _ => 0 |} in
  (forall g, In g (stringToGlyphs f (lit "AB")) ->
     pathToContours (getPath f g (o_size (name_opts 3))) (o_size (name_opts 3) / unitsPerEm f) = []) /\
  buildText f (lit "AB") (name_opts 3) = None.
Proof.
  intro f. assert (H : forall g, In g (stringToGlyphs f (lit "AB")) ->
     pathToContours (getPath f g (o_size (name_opts 3))) (o_size (name_opts 3) / unitsPerEm f) = [])
    by (intros g _; reflexivity).
  split; [exact H | exact (buildText_blank_glyphs f (lit "AB") (name_opts 3) H)].
Defined.

Lemma generate_null_name_witness :
  let f := {| Glyph := unit; unitsPerEm := 1000;
              stringToGlyphs := fun s => map (fun _ => tt) s;
              getPath := fun _ _ => [];
              advanceWidth := fun _ => None; getKerningValue := fun _ _ => 0 |} in
  let inp := {| in_playerName := Some JNull; in_number := None; in_jerseyStyle := None;
                in_showTrim := None; in_baseThickness := Some 4 |} in
  in_playerName inp = Some JNull /\
  lookup_region (generate f inp) (lit "name") = buildText f (lit "NULL") (name_opts 4).
Proof.
  intros f inp. split; [reflexivity|].
  exact (generate_null_name f inp eq_refl).
Defined.

Lemma exportAllSTL_distinct_witness :
  let regions := [{| rid := lit "body" |}; {| rid := lit "trim" |}; {| rid := lit "logo" |}] in
  let rm := [(lit "body", Some (G3Extrude 3 (G2Polygon [])));
             (lit "trim", Some (G3Extrude 5 (G2Polygon [])))] in
  NoDup (map rid regions) /\ NoDup (exportAllSTL (lit "jersey") regions rm).
Proof.
  intros regions rm.
  assert (H : NoDup (map rid regions)).
  { cbv [regions map rid].
    repeat constructor; cbv [In]; intros Hin;
      repeat (destruct Hin as [Hin|Hin]; [cbv in Hin; discriminate|]); exact Hin. }
  split; [exact H | exact (exportAllSTL_distinct (lit "jersey") regions rm H)].
Defined.
